(** * Animation drivers of [spaceweather.visualisation.animations]

    A shallow embedding of the six gif drivers [data_globe_gif],
    [connections_globe_gif], [lag_mat_gif_time], [lag_network_gif],
    [corr_thresh_gif] and [cca_ang_gif], and the properties of the
    frame pipeline they share.

    The drivers are effectful Python: they create directories, save one
    png per axis index, read the pngs back and write a gif.  They are
    embedded in a state-and-exception monad over a small model of the
    file system; the plotting functions, [auto_ortho] and the dataset
    payload are collaborators the drivers only call, and are taken as
    the fields of a class.

    What the model leaves out: a path is the string the driver builds
    (no normalisation, links or permissions), a character is one
    [ascii], a figure is the image it is saved as, and the library calls
    ([os.path.exists], [os.makedirs], [savefig], [Image.open],
    [Image.save], dataset indexing) have the outcomes written out at
    their definitions and no others.  The drivers run alone: nothing
    else changes the file system while one runs. *)

From Stdlib Require Import String Ascii Decimal DecimalNat DecimalString ZArith Lia.
From stdpp Require Import base option list gmap strings fin_maps.

Local Open Scope string_scope.
Local Open Scope list_scope.
Local Open Scope Z_scope.
Local Open Scope nat_scope.

(** ** Python values and exceptions *)

(** The exceptions the drivers and the library calls they make can raise.
    [OtherError] stands for whatever else a plotting collaborator raises. *)
Inductive exn : Type :=
  | ValueError (msg : string)
  | IndexError
  | AttributeError (name : string)
  | FileExistsError
  | FileNotFoundError
  | NotADirectoryError
  | IsADirectoryError
  | OtherError (name : string).

(** The outcome of a call: a value, or a raised exception. *)
Inductive result (A : Type) : Type :=
  | Ok (a : A)
  | Raise (e : exn).
Arguments Ok {A} a.
Arguments Raise {A} e.

(** What a driver hands back to its caller. *)
Inductive pyval : Type :=
  | PyNone
  | PyStr (s : string).

Module Str.

(** ['.' in s] for a one-character needle. *)
Fixpoint contains (c : ascii) (s : string) : bool :=
  match s with
  | EmptyString => false
  | String c' s' => if Ascii.eqb c c' then true else contains c s'
  end.

(** [s[:-4]]: everything but the last four characters; the empty string
    when [s] has four characters or fewer. *)
Definition drop_last4 (s : string) : string :=
  String.substring 0 (String.length s - 4) s.

(** ['%s' % i] for a non-negative integer: its decimal numeral. *)
Definition of_nat (i : nat) : string :=
  NilEmpty.string_of_uint (Nat.to_uint i).

End Str.

(** ** Labelled datasets (xarray) *)

(** A coordinate value: a station code or a time stamp. *)
Inductive label : Type :=
  | Name (s : string)
  | Stamp (t : Z).

(** An [xarray.Dataset] as far as the drivers see it: its dimensions with
    their coordinate values in storage order, the positions already fixed
    by integer indexing, the names of its data variables, and the payload
    the plotting functions read. *)
Record Dataset (Data : Type) : Type := MkDataset {
  dims : list (string * list label);
  selected : list (string * nat);
  data_vars : list string;
  payload : Data
}.
Arguments MkDataset {Data} _ _ _ _.
Arguments dims {Data} _.
Arguments selected {Data} _.
Arguments data_vars {Data} _.
Arguments payload {Data} _.

(** A data variable of a dataset ([ds.name.values]). *)
Record DataArray (Data : Type) : Type := MkDataArray {
  arr_of : Dataset Data;
  arr_name : string
}.
Arguments MkDataArray {Data} _ _.
Arguments arr_of {Data} _.
Arguments arr_name {Data} _.

Module Xr.
Section Xr.
Context {Data : Type}.

Fixpoint assoc {V : Type} (k : string) (l : list (string * V)) : option V :=
  match l with
  | [] => None
  | (k', v) :: l' => if String.eqb k k' then Some v else assoc k l'
  end.

Fixpoint remove_key {V : Type} (k : string) (l : list (string * V))
  : list (string * V) :=
  match l with
  | [] => []
  | (k', v) :: l' =>
      if String.eqb k k' then remove_key k l' else (k', v) :: remove_key k l'
  end.

(** [ds.<name>.values] for a coordinate name. *)
Definition coord_values (ds : Dataset Data) (name : string)
  : result (list label) :=
  match assoc name (dims ds) with
  | Some vs => Ok vs
  | None => Raise (AttributeError name)
  end.

(** [ds.<name>.values] for a data variable. *)
Definition var_values (ds : Dataset Data) (name : string)
  : result (DataArray Data) :=
  if existsb (String.eqb name) (data_vars ds)
  then Ok (MkDataArray ds name)
  else Raise (AttributeError name).

(** Size of a dimension. *)
Definition dim_size (ds : Dataset Data) (name : string) : option nat :=
  length <$> assoc name (dims ds).

Definition known_dim (ds : Dataset Data) (ix : string * nat) : bool :=
  match assoc ix.1 (dims ds) with Some _ => true | None => false end.

Definition in_range (ds : Dataset Data) (ix : string * nat) : bool :=
  match assoc ix.1 (dims ds) with
  | Some vs => ix.2 <? length vs
  | None => false
  end.

(** [ds[dict(d1 = i1, ...)]] with non-negative integers: a dimension the
    dataset does not have is a [ValueError], a position past the end of
    its dimension an [IndexError]; otherwise the dimensions are fixed
    and dropped from [dims]. *)
Definition isel (ds : Dataset Data) (indexers : list (string * nat))
  : result (Dataset Data) :=
  if negb (forallb (known_dim ds) indexers) then
    Raise (ValueError "Dimensions do not exist")
  else if negb (forallb (in_range ds) indexers) then
    Raise IndexError
  else
    Ok (MkDataset
          (foldr (λ ix ds', remove_key ix.1 ds') (dims ds) indexers)
          (selected ds ++ indexers)
          (data_vars ds)
          (payload ds)).

End Xr.
End Xr.

(** ** Collaborators *)

(** The plotting functions of [spaceweather.visualisation.static] and
    [spaceweather.visualisation.heatmaps] and [auto_ortho].  Each either
    returns a figure or raises. *)
Class Collaborators : Type := {
  Data : Type;
  Figure : Type;
  Ortho : Type;
  Kwargs : Type;
  auto_ortho : list label → result Ortho;
  plot_data_globe :
    Dataset Data → list label → list string → nat → Ortho → bool → bool →
    Kwargs → result Figure;
  plot_connections_globe :
    DataArray Data → list label → label → Ortho → bool → Kwargs →
    result Figure;
  plot_lag_mat_time : Dataset Data → Kwargs → result Figure;
  plot_lag_network : Dataset Data → Kwargs → result Figure;
  plot_corr_thresh : Dataset Data → Kwargs → result Figure;
  plot_cca_ang : Dataset Data → string → Kwargs → result Figure
}.

(** ** The file system and the driver monad *)

Module Path.

(** The proper prefixes of a path that end just before a ['/'], outermost
    first, each prefixed with [acc]: for ["a/b/c"] these are ["a"] and
    ["a/b"]. *)
Fixpoint prefixes (acc p : string) : list string :=
  match p with
  | EmptyString => []
  | String c p' =>
      if Ascii.eqb c "/" then acc :: prefixes (acc +:+ "/") p'
      else prefixes (acc +:+ String c EmptyString) p'
  end.

(** The directories above a path; the empty prefix (the root, or the
    working directory) is not listed. *)
Definition ancestors (p : string) : list string :=
  filter (λ a, a ≠ "") (prefixes "" p).

(** [os.path.dirname]. *)
Definition dirname (p : string) : string :=
  default "" (last (prefixes "" p)).

End Path.

Section Drivers.
Context `{Collaborators}.

(** What a path holds: a directory, a saved figure, or an animation with
    its frames, per-frame duration and loop count. *)
Inductive node : Type :=
  | Dir
  | Png (fig : Figure)
  | Gif (frames : list Figure) (duration loop : Z).

(** The world a driver acts on: the file system, keyed by path, and what
    has been printed. *)
Record world : Type := MkWorld {
  files : gmap string node;
  stdout : list string
}.

Definition set_files (w : world) (fs : gmap string node) : world :=
  MkWorld fs (stdout w).

(** Computations that read and change the world and may raise; the
    world changes made before an exception stay. *)
Definition M (A : Type) : Type := world → result A * world.

#[global] Instance M_ret : MRet M := λ A a w, (Ok a, w).
#[global] Instance M_bind : MBind M := λ A B f m w,
  match m w with
  | (Ok a, w') => f a w'
  | (Raise e, w') => (Raise e, w')
  end.

Definition raise {A : Type} (e : exn) : M A := λ w, (Raise e, w).

(** Run a call that does not touch the world. *)
Definition lift {A : Type} (r : result A) : M A := λ w, (r, w).

(** [os.path.exists]. *)
Definition os_path_exists (p : string) : M bool :=
  λ w, (Ok (bool_decide (is_Some (files w !! p))), w).

(** Create the missing directories above a path, outermost first;
    a regular file on the way is a [NotADirectoryError]. *)
Fixpoint make_ancestors (l : list string) (fs : gmap string node)
  : result unit * gmap string node :=
  match l with
  | [] => (Ok (), fs)
  | a :: l' =>
      match fs !! a with
      | None => make_ancestors l' (<[a := Dir]> fs)
      | Some Dir => make_ancestors l' fs
      | Some _ => (Raise NotADirectoryError, fs)
      end
  end.

(** [os.makedirs] (with [exist_ok=False]). *)
Definition os_makedirs (p : string) : M unit := λ w,
  if bool_decide (p = "") then (Raise FileNotFoundError, w)
  else
    match make_ancestors (Path.ancestors p) (files w) with
    | (Raise e, fs) => (Raise e, set_files w fs)
    | (Ok _, fs) =>
        match fs !! p with
        | Some _ => (Raise FileExistsError, set_files w fs)
        | None => (Ok (), set_files w (<[p := Dir]> fs))
        end
    end.

(** Writing a file: the path must not be a directory and the directory
    above it must exist. *)
Definition write_file (p : string) (n : node) : M unit := λ w,
  match files w !! p with
  | Some Dir => (Raise IsADirectoryError, w)
  | _ =>
      let d := Path.dirname p in
      if bool_decide (d = "") then (Ok (), set_files w (<[p := n]> (files w)))
      else
        match files w !! d with
        | Some Dir => (Ok (), set_files w (<[p := n]> (files w)))
        | Some _ => (Raise NotADirectoryError, w)
        | None => (Raise FileNotFoundError, w)
        end
  end.

(** [fig.savefig(name)]. *)
Definition savefig (fig : Figure) (name : string) : M unit :=
  write_file name (Png fig).

(** [Image.open(name)]: the frames of the image file, one for a png. *)
Definition Image_open (name : string) : M (list Figure) := λ w,
  match files w !! name with
  | Some (Png fig) => (Ok [fig], w)
  | Some (Gif frames _ _) => (Ok frames, w)
  | Some Dir => (Raise IsADirectoryError, w)
  | None => (Raise FileNotFoundError, w)
  end.

(** [first.save(name, save_all=True, append_images=rest, duration=d,
    loop=l)]: one animation holding the frames of [first] and then of
    each of [rest]. *)
Definition Image_save (first : list Figure) (name : string)
    (append_images : list (list Figure)) (duration loop : Z) : M unit :=
  write_file name (Gif (first ++ concat append_images) duration loop).

(** [print(s)]. *)
Definition print (s : string) : M unit :=
  λ w, (Ok (), MkWorld (files w) (stdout w ++ [s])).

(** [xs[i]]. *)
Definition getitem {A : Type} (xs : list A) (i : nat) : M A :=
  match xs !! i with
  | Some x => mret x
  | None => raise IndexError
  end.

(** [for i in range(start, start + count): s = body(i, s)], where [s]
    stands for the variables the body updates. *)
Fixpoint for_range_from {St : Type} (start count : nat)
    (body : nat → St → M St) (s : St)   : M St :=
  match count with
  | 0 => mret s
  | S count' =>
      s' ← body start s; for_range_from (S start) count' body s'
  end.

Definition for_range {St : Type} (n : nat) (body : nat → St → M St) (s : St)
    : M St :=
  for_range_from 0 n body s.

(** [for x in xs: s = body(x, s)]. *)
Fixpoint for_each {A St : Type} (xs : list A) (body : A → St → M St) (s : St)
    : M St :=
  match xs with
  | [] => mret s
  | x :: xs' => s' ← body x s; for_each xs' body s'
  end.

(** ** The six drivers

    Each follows its Python source statement by statement; a variable
    the source rebinds ([filename], [list_of_stations], [ortho_trans])
    is rebound here under the same name. *)

Definition name_error : string :=
  "Error: please input filename without file extension".

Definition data_globe_gif (ds : Dataset Data) (filepath filename : string)
    (list_of_stations : option (list label))
    (list_of_components : list string) (ortho_trans : option Ortho)
    (daynight colour : bool) (kwargs : Kwargs) : M pyval :=
  (* check filepaths *)
  e ← os_path_exists filepath;
  (if negb e then os_makedirs filepath else mret ());;
  let im_filepath := filepath +:+ "/images_for_giffing" in
  e ← os_path_exists im_filepath;
  (if negb e then os_makedirs im_filepath else mret ());;
  (* check filename *)
  filename ←
    (if Str.contains "." filename then
       if 4 <? String.length filename then mret (Str.drop_last4 filename)
       else raise (ValueError name_error)
     else mret filename);
  (* get constants *)
  list_of_stations ←
    match list_of_stations with
    | None => lift (Xr.coord_values ds "station")
    | Some l => mret l
    end;
  list_of_times ← lift (Xr.coord_values ds "time");
  let num_times := length list_of_times in
  (* check ortho_trans *)
  ortho_trans ←
    match ortho_trans with
    | None => lift (auto_ortho list_of_stations)
    | Some o => mret o
    end;
  (* plot the data vectors for each time in the Dataset *)
  names ← for_range num_times (λ i names,
    fig ← lift (plot_data_globe ds list_of_stations list_of_components i
                  ortho_trans daynight colour kwargs);
    let im_name := im_filepath +:+ "/" +:+ Str.of_nat i +:+ ".png" in
    savefig fig im_name;;
    mret (names ++ [im_name])) [];
  (* append plots to each other *)
  images ← for_each names (λ n images,
    im ← Image_open n; mret (images ++ [im])) [];
  (* make gif file and save it in filepath *)
  first ← getitem images 0;
  Image_save first (filepath +:+ "/" +:+ filename +:+ ".gif")
    (drop 1 images) 100 0;;
  mret PyNone.

Definition connections_globe_gif (adj_mat_ds : Dataset Data)
    (filepath filename : string) (ortho_trans : option Ortho)
    (daynight : bool) (kwargs : Kwargs) : M pyval :=
  (* check filepaths *)
  e ← os_path_exists filepath;
  (if negb e then os_makedirs filepath else mret ());;
  let im_filepath := filepath +:+ "/images_for_giffing" in
  e ← os_path_exists im_filepath;
  (if negb e then os_makedirs im_filepath else mret ());;
  let continue (filename : string) : M pyval :=
    (* get constants *)
    list_of_stations ← lift (Xr.coord_values adj_mat_ds "first_st");
    list_of_win_start ← lift (Xr.coord_values adj_mat_ds "win_start");
    let num_win := length list_of_win_start in
    (* check ortho_trans *)
    ortho_trans ←
      match ortho_trans with
      | None => lift (auto_ortho list_of_stations)
      | Some o => mret o
      end;
    (* plot the connections for each win_start value *)
    names ← for_range num_win (λ i names,
      sl ← lift (Xr.isel adj_mat_ds [("win_start", i)]);
      adj_matrix ← lift (Xr.var_values sl "adj_coeffs");
      time ← getitem list_of_win_start i;
      fig ← lift (plot_connections_globe adj_matrix list_of_stations time
                    ortho_trans daynight kwargs);
      let im_name := im_filepath +:+ "/" +:+ Str.of_nat i +:+ ".png" in
      savefig fig im_name;;
      mret (names ++ [im_name])) [];
    (* append plots to each other *)
    images ← for_each names (λ n images,
      im ← Image_open n; mret (images ++ [im])) [];
    (* make gif file and save it in filepath *)
    first ← getitem images 0;
    Image_save first (filepath +:+ "/" +:+ filename +:+ ".gif")
      (drop 1 images) 100 0;;
    mret PyNone in
  (* check filename *)
  if Str.contains "." filename then
    if 4 <? String.length filename then continue (Str.drop_last4 filename)
    else (print name_error;; mret (PyStr name_error))
  else continue filename.

Definition lag_mat_gif_time (lag_ds : Dataset Data)
    (filepath filename : string) (kwargs : Kwargs) : M pyval :=
  (* check filepaths *)
  e ← os_path_exists filepath;
  (if negb e then os_makedirs filepath else mret ());;
  let im_filepath := filepath +:+ "/images_for_giffing" in
  e ← os_path_exists im_filepath;
  (if negb e then os_makedirs im_filepath else mret ());;
  (* check filename *)
  filename ←
    (if Str.contains "." filename then
       if 4 <? String.length filename then mret (Str.drop_last4 filename)
       else raise (ValueError name_error)
     else mret filename);
  (* get constants *)
  time_wins ← lift (Xr.coord_values lag_ds "time_win");
  let num_win := length time_wins in
  names ← for_range num_win (λ i names,
    lm ← lift (Xr.isel lag_ds
                 [("time_win", i); ("lag", 0); ("win_start", i)]);
    fig ← lift (plot_lag_mat_time lm kwargs);
    let im_name := im_filepath +:+ "/" +:+ Str.of_nat i +:+ ".png" in
    savefig fig im_name;;
    mret (names ++ [im_name])) [];
  (* append plots to each other *)
  images ← for_each names (λ n images,
    im ← Image_open n; mret (images ++ [im])) [];
  (* make gif file and save it in filepath *)
  first ← getitem images 0;
  Image_save first (filepath +:+ "/" +:+ filename +:+ ".gif")
    (drop 1 images) 100 0;;
  mret PyNone.

Definition lag_network_gif (adj_matrix_ds : Dataset Data)
    (filepath filename : string) (kwargs : Kwargs) : M pyval :=
  (* check filepaths *)
  e ← os_path_exists filepath;
  (if negb e then os_makedirs filepath else mret ());;
  let im_filepath := filepath +:+ "/images_for_giffing" in
  e ← os_path_exists im_filepath;
  (if negb e then os_makedirs im_filepath else mret ());;
  (* check filename *)
  filename ←
    (if Str.contains "." filename then
       if 4 <? String.length filename then mret (Str.drop_last4 filename)
       else raise (ValueError name_error)
     else mret filename);
  (* get constants *)
  w_sts ← lift (Xr.coord_values adj_matrix_ds "win_start");
  let num_win := length w_sts in
  names ← for_range num_win (λ i names,
    am ← lift (Xr.isel adj_matrix_ds [("win_start", i)]);
    fig ← lift (plot_lag_network am kwargs);
    let im_name := im_filepath +:+ "/" +:+ Str.of_nat i +:+ ".png" in
    savefig fig im_name;;
    mret (names ++ [im_name])) [];
  (* append plots to each other *)
  images ← for_each names (λ n images,
    im ← Image_open n; mret (images ++ [im])) [];
  (* make gif file and save it in filepath *)
  first ← getitem images 0;
  Image_save first (filepath +:+ "/" +:+ filename +:+ ".gif")
    (drop 1 images) 100 0;;
  mret PyNone.

Definition corr_thresh_gif (corr_thresh_ds : Dataset Data)
    (filepath filename : string) (kwargs : Kwargs) : M pyval :=
  (* check filepaths *)
  e ← os_path_exists filepath;
  (if negb e then os_makedirs filepath else mret ());;
  let im_filepath := filepath +:+ "/images_for_giffing" in
  e ← os_path_exists im_filepath;
  (if negb e then os_makedirs im_filepath else mret ());;
  (* check filename *)
  filename ←
    (if Str.contains "." filename then
       if 4 <? String.length filename then mret (Str.drop_last4 filename)
       else raise (ValueError name_error)
     else mret filename);
  (* get constants *)
  w_sts ← lift (Xr.coord_values corr_thresh_ds "win_start");
  let num_win := length w_sts in
  names ← for_range num_win (λ i names,
    clm ← lift (Xr.isel corr_thresh_ds [("win_start", i)]);
    fig ← lift (plot_corr_thresh clm kwargs);
    let im_name := im_filepath +:+ "/" +:+ Str.of_nat i +:+ ".png" in
    savefig fig im_name;;
    mret (names ++ [im_name])) [];
  (* append plots to each other *)
  images ← for_each names (λ n images,
    im ← Image_open n; mret (images ++ [im])) [];
  (* make gif file and save it in filepath *)
  first ← getitem images 0;
  Image_save first (filepath +:+ "/" +:+ filename +:+ ".gif")
    (drop 1 images) 100 0;;
  mret PyNone.

Definition cca_ang_gif (cca_ang_ds : Dataset Data) (a_b : string)
    (filepath filename : string) (kwargs : Kwargs) : M pyval :=
  (* check filepaths *)
  e ← os_path_exists filepath;
  (if negb e then os_makedirs filepath else mret ());;
  let im_filepath := filepath +:+ "/images_for_giffing" in
  e ← os_path_exists im_filepath;
  (if negb e then os_makedirs im_filepath else mret ());;
  (* check filename *)
  filename ←
    (if Str.contains "." filename then
       if 4 <? String.length filename then mret (Str.drop_last4 filename)
       else raise (ValueError name_error)
     else mret filename);
  (* get constants *)
  times ← lift (Xr.coord_values cca_ang_ds "time");
  let num_times := length times in
  names ← for_range num_times (λ i names,
    cam ← lift (Xr.isel cca_ang_ds [("time", i)]);
    fig ← lift (plot_cca_ang cam a_b kwargs);
    let im_name := im_filepath +:+ "/" +:+ Str.of_nat i +:+ ".png" in
    savefig fig im_name;;
    mret (names ++ [im_name])) [];
  (* append plots to each other *)
  images ← for_each names (λ n images,
    im ← Image_open n; mret (images ++ [im])) [];
  (* make gif file and save it in filepath *)
  first ← getitem images 0;
  Image_save first (filepath +:+ "/" +:+ filename +:+ ".gif")
    (drop 1 images) 100 0;;
  mret PyNone.

End Drivers.

(** ** The shape the six drivers share

    A call of one of the drivers, and the blocks every driver is made of:
    the directory check, the file-name check, the constants read off the
    dataset, the frame loop and the encoding.  [run_blocks] below shows
    that each driver is these blocks in this order. *)

Section Pipeline.
Context `{Collaborators}.

Inductive call : Type :=
  | DataGlobe (ds : Dataset Data) (filepath filename : string)
      (list_of_stations : option (list label))
      (list_of_components : list string) (ortho_trans : option Ortho)
      (daynight colour : bool) (kwargs : Kwargs)
  | ConnectionsGlobe (adj_mat_ds : Dataset Data)
      (filepath filename : string) (ortho_trans : option Ortho)
      (daynight : bool) (kwargs : Kwargs)
  | LagMatTime (lag_ds : Dataset Data) (filepath filename : string)
      (kwargs : Kwargs)
  | LagNetwork (adj_matrix_ds : Dataset Data) (filepath filename : string)
      (kwargs : Kwargs)
  | CorrThresh (corr_thresh_ds : Dataset Data) (filepath filename : string)
      (kwargs : Kwargs)
  | CcaAng (cca_ang_ds : Dataset Data) (a_b : string)
      (filepath filename : string) (kwargs : Kwargs).

Definition run (c : call) : M pyval :=
  match c with
  | DataGlobe ds fp fn sts comps ot dn col kw =>
      data_globe_gif ds fp fn sts comps ot dn col kw
  | ConnectionsGlobe ds fp fn ot dn kw =>
      connections_globe_gif ds fp fn ot dn kw
  | LagMatTime ds fp fn kw => lag_mat_gif_time ds fp fn kw
  | LagNetwork ds fp fn kw => lag_network_gif ds fp fn kw
  | CorrThresh ds fp fn kw => corr_thresh_gif ds fp fn kw
  | CcaAng ds ab fp fn kw => cca_ang_gif ds ab fp fn kw
  end.

Definition call_filepath (c : call) : string :=
  match c with
  | DataGlobe _ fp _ _ _ _ _ _ _ | ConnectionsGlobe _ fp _ _ _ _
  | LagMatTime _ fp _ _ | LagNetwork _ fp _ _ | CorrThresh _ fp _ _
  | CcaAng _ _ fp _ _ => fp
  end.

Definition call_filename (c : call) : string :=
  match c with
  | DataGlobe _ _ fn _ _ _ _ _ _ | ConnectionsGlobe _ _ fn _ _ _
  | LagMatTime _ _ fn _ | LagNetwork _ _ fn _ | CorrThresh _ _ fn _
  | CcaAng _ _ _ fn _ => fn
  end.

Definition call_dataset (c : call) : Dataset Data :=
  match c with
  | DataGlobe ds _ _ _ _ _ _ _ _ | ConnectionsGlobe ds _ _ _ _ _
  | LagMatTime ds _ _ _ | LagNetwork ds _ _ _ | CorrThresh ds _ _ _
  | CcaAng ds _ _ _ _ => ds
  end.

(** The coordinate whose length bounds the frame loop. *)
Definition call_axis (c : call) : string :=
  match c with
  | DataGlobe _ _ _ _ _ _ _ _ _ | CcaAng _ _ _ _ _ => "time"
  | ConnectionsGlobe _ _ _ _ _ _ | LagNetwork _ _ _ _
  | CorrThresh _ _ _ _ => "win_start"
  | LagMatTime _ _ _ _ => "time_win"
  end.

(** Whether a bad file name is raised or printed and returned. *)
Definition raises_on_bad_name (c : call) : bool :=
  match c with
  | ConnectionsGlobe _ _ _ _ _ _ => false
  | _ => true
  end.

(** *** Paths *)

Definition images_dir (filepath : string) : string :=
  filepath +:+ "/images_for_giffing".

Definition frame_path (filepath : string) (i : nat) : string :=
  images_dir filepath +:+ "/" +:+ Str.of_nat i +:+ ".png".

Definition gif_path (filepath base : string) : string :=
  filepath +:+ "/" +:+ base +:+ ".gif".

(** *** Blocks *)

(** "check filepaths". *)
Definition check_filepaths (filepath : string) : M unit :=
  e ← os_path_exists filepath;
  (if negb e then os_makedirs filepath else mret ());;
  e ← os_path_exists (images_dir filepath);
  (if negb e then os_makedirs (images_dir filepath) else mret ()).

(** "check filename": the base name the animation is saved under, or
    [None] when the name is refused. *)
Definition resolve_name (filename : string) : option string :=
  if Str.contains "." filename then
    if 4 <? String.length filename then Some (Str.drop_last4 filename)
    else None
  else Some filename.

(** What a driver does with a refused name. *)
Definition refuse (c : call) : M pyval :=
  if raises_on_bad_name c then raise (ValueError name_error)
  else (print name_error;; mret (PyStr name_error)).

#[global] Instance result_ret : MRet result := λ A a, Ok a.
#[global] Instance result_bind : MBind result := λ A B f r,
  match r with
  | Ok a => f a
  | Raise e => Raise e
  end.

(** "get constants" and "check ortho_trans": the number of frames, and
    the figure plotted for each index. *)
Definition prepare (c : call) : result (nat * (nat → result Figure)) :=
  match c with
  | DataGlobe ds _ _ sts comps ot dn col kw =>
      sts ← match sts with
            | None => Xr.coord_values ds "station"
            | Some l => Ok l
            end;
      times ← Xr.coord_values ds "time";
      o ← match ot with None => auto_ortho sts | Some o => Ok o end;
      Ok (length times, λ i, plot_data_globe ds sts comps i o dn col kw)
  | ConnectionsGlobe ds _ _ ot dn kw =>
      sts ← Xr.coord_values ds "first_st";
      win_starts ← Xr.coord_values ds "win_start";
      o ← match ot with None => auto_ortho sts | Some o => Ok o end;
      Ok (length win_starts, λ i,
            sl ← Xr.isel ds [("win_start", i)];
            adj_matrix ← Xr.var_values sl "adj_coeffs";
            time ← match win_starts !! i with
                   | Some t => Ok t
                   | None => Raise IndexError
                   end;
            plot_connections_globe adj_matrix sts time o dn kw)
  | LagMatTime ds _ _ kw =>
      time_wins ← Xr.coord_values ds "time_win";
      Ok (length time_wins, λ i,
            lm ← Xr.isel ds [("time_win", i); ("lag", 0); ("win_start", i)];
            plot_lag_mat_time lm kw)
  | LagNetwork ds _ _ kw =>
      w_sts ← Xr.coord_values ds "win_start";
      Ok (length w_sts, λ i,
            am ← Xr.isel ds [("win_start", i)]; plot_lag_network am kw)
  | CorrThresh ds _ _ kw =>
      w_sts ← Xr.coord_values ds "win_start";
      Ok (length w_sts, λ i,
            clm ← Xr.isel ds [("win_start", i)]; plot_corr_thresh clm kw)
  | CcaAng ds ab _ _ kw =>
      times ← Xr.coord_values ds "time";
      Ok (length times, λ i,
            cam ← Xr.isel ds [("time", i)]; plot_cca_ang cam ab kw)
  end.

(** The figure a call plots for axis index [i]. *)
Definition render_at (c : call) (i : nat) : result Figure :=
  p ← prepare c; p.2 i.

(** The frame loop. *)
Definition render_frames (filepath : string) (n : nat)
    (frame : nat → result Figure) : M (list string) :=
  for_range n (λ i names,
    fig ← lift (frame i);
    savefig fig (frame_path filepath i);;
    mret (names ++ [frame_path filepath i])) [].

(** "append plots to each other" and "make gif file". *)
Definition encode (filepath base : string) (names : list string)
  : M pyval :=
  images ← for_each names (λ n images,
    im ← Image_open n; mret (images ++ [im])) [];
  first ← getitem images 0;
  Image_save first (gif_path filepath base) (drop 1 images) 100 0;;
  mret PyNone.

(** Everything after the file-name check. *)
Definition body (c : call) (base : string) : M pyval :=
  p ← lift (prepare c);
  names ← render_frames (call_filepath c) p.1 p.2;
  encode (call_filepath c) base names.

(** The driver as its blocks. *)
Definition blocks (c : call) : M pyval :=
  check_filepaths (call_filepath c);;
  match resolve_name (call_filename c) with
  | Some base => body c base
  | None => refuse c
  end.

End Pipeline.

(** ** The vocabulary of the claims *)

Section Vocabulary.
Context `{Collaborators}.

(** What may happen to a path while a driver runs: it is left alone, a
    directory is created where nothing was, or a png or a gif (always
    with duration 100 and loop count 0) is written over anything but a
    directory. *)
Definition written (o n : option node) : Prop :=
  n = o
  ∨ (o = None ∧ n = Some Dir)
  ∨ (o ≠ Some Dir ∧ ∃ fig, n = Some (Png fig))
  ∨ (o ≠ Some Dir ∧ ∃ frames, n = Some (Gif frames 100 0)).

Definition evolves (w w' : world) : Prop :=
  ∀ p, written (files w !! p) (files w' !! p).

(** A computation that only ever changes the world in these ways. *)
Definition keeps {A : Type} (m : M A) : Prop :=
  ∀ w r w', m w = (r, w') → evolves w w'.

(** The file system once [figs] have been saved as the frames [start],
    [start + 1], ... of the scratch directory. *)
Fixpoint write_frames (fp : string) (start : nat) (figs : list Figure)
    (fs : gmap string node) : gmap string node :=
  match figs with
  | [] => fs
  | fig :: figs' =>
      write_frames fp (S start) figs' (<[frame_path fp start := Png fig]> fs)
  end.

(** The files a job leaves behind when it went through. *)
Definition job_files (fp base : string) (figs : list Figure)
    (fs : gmap string node) : gmap string node :=
  <[gif_path fp base := Gif figs 100 0]> (write_frames fp 0 figs fs).

(** A run that went through: the driver returned, and did not leave
    through the refused-name exit. *)
Definition completes (c : call) (w : world) (v : pyval) (w' : world)
  : Prop :=
  run c w = (Ok v, w') ∧ is_Some (resolve_name (call_filename c)).

(** One half of the check: see whether the directory is there, make it
    if not. *)
Definition ensure_dir (p : string) : M unit :=
  e ← os_path_exists p; if negb e then os_makedirs p else mret ().

(** The slice [lag_mat_gif_time] takes for index [i]. *)
Definition lag_slice (lag_ds : Dataset Data) (i : nat)
  : result (Dataset Data) :=
  Xr.isel lag_ds [("time_win", i); ("lag", 0); ("win_start", i)].

End Vocabulary.

(** ** Scenarios

    The end-to-end scenarios on concrete datasets, with plotting
    functions that number their figures.  [Kwargs] names the axis index
    whose plot raises, if any. *)

Module Scenarios.

Definition plots : Collaborators := {|
  Data := unit;
  Figure := nat;
  Ortho := nat;
  Kwargs := option nat;
  auto_ortho sts := Ok (length sts);
  plot_data_globe ds sts comps t o dn col kw :=
    if decide (kw = Some t) then Raise (OtherError "RenderError")
    else Ok (100 * length sts + 10 * o + t);
  plot_connections_globe arr sts time o dn kw := Ok o;
  plot_lag_mat_time lm kw := Ok (length (selected lm));
  plot_lag_network am kw := Ok 0;
  plot_corr_thresh clm kw := Ok 0;
  plot_cca_ang cam a_b kw := Ok 0
|}.
#[local] Existing Instance plots.

Definition five_times : Dataset unit :=
  MkDataset
    [("station", [Name "TAL"; Name "BLC"]);
     ("time", [Stamp 0; Stamp 1; Stamp 2; Stamp 3; Stamp 4])]
    [] ["N"; "E"] tt.

Definition no_times : Dataset unit :=
  MkDataset [("station", [Name "TAL"; Name "BLC"]); ("time", [])]
    [] ["N"; "E"] tt.

Definition windows : Dataset unit :=
  MkDataset
    [("first_st", [Name "TAL"; Name "BLC"]);
     ("second_st", [Name "TAL"; Name "BLC"]);
     ("win_start", [Stamp 0; Stamp 60])]
    [] ["adj_coeffs"] tt.




Definition empty_world : world := MkWorld ∅ [].

(** The world once ["out"] and its scratch directory are made. *)
Definition resolved : world := (check_filepaths "out" empty_world).2.

(** Scenario A: five time steps, default options. *)
Definition scenario_a : call :=
  DataGlobe five_times "out" "globe_data" None ["N"; "E"] None
    true false None.


Definition scenario_empty : call :=
  DataGlobe no_times "out" "globe_data" None ["N"; "E"] None
    true false None.


Definition scenario_dot_gif : call :=
  ConnectionsGlobe windows "out" ".gif" None true None.

End Scenarios.

(** ** More scenarios *)

Module MoreScenarios.
Import Scenarios.
#[local] Existing Instance plots.

(** The world scenario A leaves. *)
Definition after_a : world := (run scenario_a empty_world).2.


Definition stations_only : Dataset unit :=
  MkDataset [("station", [Name "TAL"; Name "BLC"])] [] ["N"; "E"] tt.

Definition scenario_no_axis : call :=
  DataGlobe stations_only "out" "globe_data" None ["N"; "E"] None
    true false None.

Definition lagless : Dataset unit :=
  MkDataset
    [("time_win", [Stamp 0; Stamp 60]); ("win_start", [Stamp 0; Stamp 60])]
    [] ["lag_coeffs"] tt.

(** An output root whose scratch path is a saved figure. *)
Definition scratch_is_file : world :=
  MkWorld
    (list_to_map [("out", Dir); ("out/images_for_giffing", Png 7)]) [].


(** Plotting functions whose [auto_ortho] refuses an empty station
    list. *)
Definition strict_plots : Collaborators := {|
  Data := unit;
  Figure := nat;
  Ortho := nat;
  Kwargs := option nat;
  auto_ortho sts :=
    match sts with
    | [] => Raise (ValueError "no stations")
    | _ => Ok (length sts)
    end;
  plot_data_globe ds sts comps t o dn col kw := Ok t;
  plot_connections_globe arr sts time o dn kw := Ok o;
  plot_lag_mat_time lm kw := Ok 0;
  plot_lag_network am kw := Ok 0;
  plot_corr_thresh clm kw := Ok 0;
  plot_cca_ang cam a_b kw := Ok 0
|}.

Definition no_stations : Dataset unit :=
  MkDataset
    [("station", []); ("first_st", []); ("second_st", []);
     ("time", []); ("win_start", [])]
    [] ["N"; "E"; "adj_coeffs"] tt.

Definition strict_empty : @world strict_plots := @MkWorld strict_plots ∅ [].

Definition strict_resolved : @world strict_plots :=
  (@check_filepaths strict_plots "out" strict_empty).2.

End MoreScenarios.

(** ** Reasoning about driver computations *)

Section MonadFacts.
Context `{Collaborators}.

Lemma bind_run {A B : Type} (m : M A) (f : A → M B) (w : world) :
  (m ≫= f) w =
  match m w with
  | (Ok a, w') => f a w'
  | (Raise e, w') => (Raise e, w')
  end.
Proof. reflexivity. Qed.

Lemma bind_ext {A B : Type} (m1 m2 : M A) (f1 f2 : A → M B) (w : world) :
  m1 w = m2 w →
  (∀ a w', f1 a w' = f2 a w') →
  (m1 ≫= f1) w = (m2 ≫= f2) w.
Proof.
  intros Hm Hf. rewrite !bind_run, Hm.
  destruct (m2 w) as [[a|e] w']; [apply Hf | reflexivity].
Qed.

Lemma bind_lift {A B : Type} (r : result A) (f : A → M B) (w : world) :
  (lift r ≫= f) w =
  match r with Ok a => f a w | Raise e => (Raise e, w) end.
Proof. rewrite bind_run. unfold lift. by destruct r. Qed.

Lemma bind_assoc {A B C : Type} (m : M A) (f : A → M B) (g : B → M C) w :
  ((m ≫= f) ≫= g) w = (m ≫= λ a, f a ≫= g) w.
Proof. rewrite !bind_run. by destruct (m w) as [[a|e] w']. Qed.

Lemma ret_run {A : Type} (a : A) (w : world) :
  (mret a : M A) w = (Ok a, w).
Proof. reflexivity. Qed.

Lemma bind_ret {A B : Type} (a : A) (f : A → M B) (w : world) :
  (mret a ≫= f) w = f a w.
Proof. reflexivity. Qed.

Lemma bind_raise {A B : Type} (e : exn) (f : A → M B) (w : world) :
  (raise e ≫= f) w = (Raise e, w).
Proof. reflexivity. Qed.

Lemma result_bind_ok {A B : Type} (a : A) (f : A → result B) :
  (Ok a ≫= f) = f a.
Proof. reflexivity. Qed.

Lemma result_bind_raise {A B : Type} (e : exn) (f : A → result B) :
  (Raise e ≫= f) = Raise e.
Proof. reflexivity. Qed.

Lemma bind_getitem {A B : Type} (xs : list A) (i : nat) (f : A → M B) w :
  (getitem xs i ≫= f) w =
  match xs !! i with Some x => f x w | None => (Raise IndexError, w) end.
Proof. unfold getitem. by destruct (xs !! i). Qed.

Lemma for_range_from_ext {St : Type} (b1 b2 : nat → St → M St) :
  (∀ i s w, b1 i s w = b2 i s w) →
  ∀ count start s w,
    for_range_from start count b1 s w = for_range_from start count b2 s w.
Proof.
  intros Hb. induction count as [|count IH]; intros start s w; [done|].
  simpl. apply bind_ext; [apply Hb | intros; apply IH].
Qed.

Lemma for_range_ext {St : Type} (b1 b2 : nat → St → M St) n s w :
  (∀ i s w, b1 i s w = b2 i s w) →
  for_range n b1 s w = for_range n b2 s w.
Proof. intros Hb. by apply for_range_from_ext. Qed.

Lemma check_filepaths_bind {B : Type} (fp : string) (k : M B) (w : world) :
  (check_filepaths fp ≫= λ _, k) w =
  (e ← os_path_exists fp;
   (if negb e then os_makedirs fp else mret ());;
   e ← os_path_exists (fp +:+ "/images_for_giffing");
   (if negb e then os_makedirs (fp +:+ "/images_for_giffing")
    else mret ());;
   k) w.
Proof.
  unfold check_filepaths, images_dir. rewrite bind_assoc.
  apply bind_ext; [done|]. intros e w1. rewrite bind_assoc.
  apply bind_ext; [done|]. intros _ w2. by rewrite bind_assoc.
Qed.

Ltac skip_bind := apply bind_ext; [reflexivity | intros ? ?].

Ltac norm :=
  repeat first
    [ rewrite bind_ret | rewrite bind_raise | rewrite bind_lift
    | rewrite bind_getitem
    | rewrite result_bind_ok | rewrite result_bind_raise ].

Ltac pure_step :=
  norm;
  match goal with
  | |- context [Xr.coord_values ?d ?n] =>
      destruct (Xr.coord_values d n) as [?|?]
  | |- context [auto_ortho ?l] => destruct (auto_ortho l) as [?|?]
  | |- context [Xr.isel ?d ?ix] => destruct (Xr.isel d ix) as [?|?]
  | |- context [Xr.var_values ?d ?n] =>
      destruct (Xr.var_values d n) as [?|?]
  | |- context [@lookup nat label _ _ ?i ?l] => destruct (l !! i) as [?|]
  end;
  norm; try reflexivity.

(** Each driver is its blocks, in order. *)
Lemma run_blocks (c : call) (w : world) : run c w = blocks c w.
Proof.
  unfold blocks. rewrite check_filepaths_bind.
  destruct c; simpl.
  all: cbv [data_globe_gif connections_globe_gif lag_mat_gif_time
            lag_network_gif corr_thresh_gif cca_ang_gif].
  all: do 4 skip_bind.
  all: unfold resolve_name, refuse; simpl.
  all: destruct (Str.contains "." filename);
         [destruct (4 <? String.length filename)%nat|]; try reflexivity.
  all: unfold body, prepare; simpl call_filepath.
  all: try destruct list_of_stations; try destruct ortho_trans.
  all: repeat pure_step.
  all: cbn [fst snd].
  all: (apply bind_ext; [|reflexivity]).
  all: apply for_range_ext; intros i names w0.
  all: norm; try reflexivity.
  all: repeat pure_step.
Qed.

End MonadFacts.

(** ** Facts about strings and paths *)

Section StringFacts.

Local Abbreviation chars := list_ascii_of_string.

Lemma app_cons_s (c : ascii) (a b : string) :
  String c a +:+ b = String c (a +:+ b).
Proof. reflexivity. Qed.

Lemma chars_app (a b : string) : chars (a +:+ b) = chars a ++ chars b.
Proof.
  induction a as [|c a IH]; [done|]. rewrite app_cons_s. cbn. by rewrite IH.
Qed.

Lemma chars_inj (a b : string) : chars a = chars b → a = b.
Proof.
  intros Hab. rewrite <- (string_of_list_ascii_of_string a).
  rewrite <- (string_of_list_ascii_of_string b). by rewrite Hab.
Qed.

Lemma app_assoc_s (a b c : string) : (a +:+ b) +:+ c = a +:+ (b +:+ c).
Proof. apply chars_inj. by rewrite !chars_app, app_assoc. Qed.

Lemma app_empty_r (a : string) : a +:+ "" = a.
Proof. apply chars_inj. by rewrite chars_app, app_nil_r. Qed.

Lemma length_chars (a : string) : length (chars a) = String.length a.
Proof. induction a as [|c a IH]; [done|]. cbn. by rewrite IH. Qed.

Lemma length_app_s (a b : string) :
  String.length (a +:+ b) = String.length a + String.length b.
Proof. by rewrite <- !length_chars, chars_app, length_app. Qed.

Lemma of_nat_inj (i j : nat) : Str.of_nat i = Str.of_nat j → i = j.
Proof.
  unfold Str.of_nat. intros Hij.
  apply (f_equal NilEmpty.uint_of_string) in Hij.
  rewrite !NilEmpty.usu in Hij. injection Hij as Hij.
  apply (f_equal Nat.of_uint) in Hij. by rewrite !Unsigned.of_to in Hij.
Qed.

Lemma contains_cons (c c' : ascii) (s : string) :
  Str.contains c (String c' s) =
  if Ascii.eqb c c' then true else Str.contains c s.
Proof. reflexivity. Qed.

Lemma prefixes_cons (acc : string) (c : ascii) (p : string) :
  Path.prefixes acc (String c p) =
  if Ascii.eqb c "/" then acc :: Path.prefixes (acc +:+ "/") p
  else Path.prefixes (acc +:+ String c EmptyString) p.
Proof. reflexivity. Qed.

Lemma contains_app (c : ascii) (a b : string) :
  Str.contains c (a +:+ b) = Str.contains c a || Str.contains c b.
Proof.
  induction a as [|c' a IH]; [done|].
  rewrite app_cons_s, !contains_cons. by destruct (Ascii.eqb c c').
Qed.

Lemma uint_no_slash (d : uint) :
  Str.contains "/" (NilEmpty.string_of_uint d) = false.
Proof. induction d; simpl; done. Qed.

Lemma of_nat_no_slash (i : nat) : Str.contains "/" (Str.of_nat i) = false.
Proof. apply uint_no_slash. Qed.

Lemma prefixes_app (a b acc : string) :
  Path.prefixes acc (a +:+ b) =
  Path.prefixes acc a ++ Path.prefixes (acc +:+ a) b.
Proof.
  revert acc. induction a as [|c a IH]; intros acc.
  - cbn. by rewrite app_empty_r.
  - rewrite app_cons_s, !prefixes_cons.
    destruct (Ascii.eqb c "/") eqn:Hc.
    + apply Ascii.eqb_eq in Hc as ->. rewrite IH, app_assoc_s. reflexivity.
    + rewrite IH, app_assoc_s. reflexivity.
Qed.

Lemma prefixes_no_slash (a acc : string) :
  Str.contains "/" a = false → Path.prefixes acc a = [].
Proof.
  revert acc. induction a as [|c a IH]; intros acc; [done|].
  rewrite contains_cons, prefixes_cons, (Ascii.eqb_sym c "/").
  destruct (Ascii.eqb "/" c); [done|]. apply IH.
Qed.





End StringFacts.

Section PathFacts.
Context `{Collaborators}.

Local Abbreviation chars := list_ascii_of_string.

Lemma frame_path_inj (fp : string) (i j : nat) :
  frame_path fp i = frame_path fp j → i = j.
Proof.
  unfold frame_path. intros Hij.
  apply (f_equal chars) in Hij. rewrite !chars_app in Hij.
  do 2 apply app_inv_head in Hij. apply app_inv_tail in Hij.
  by apply of_nat_inj, chars_inj.
Qed.

Lemma images_dir_nonempty (fp : string) : images_dir fp ≠ "".
Proof.
  unfold images_dir. intros Hfp. apply (f_equal String.length) in Hfp.
  rewrite length_app_s in Hfp. cbn in Hfp. lia.
Qed.

Lemma frame_path_not_images_dir (fp : string) (i : nat) :
  frame_path fp i ≠ images_dir fp.
Proof.
  unfold frame_path. intros Hfp. apply (f_equal String.length) in Hfp.
  rewrite !length_app_s in Hfp. cbn in Hfp. lia.
Qed.

Lemma gif_path_not_frame_path (fp base : string) (i : nat) :
  gif_path fp base ≠ frame_path fp i.
Proof.
  unfold gif_path, frame_path. intros Hp.
  apply (f_equal chars) in Hp. rewrite !chars_app in Hp.
  apply (f_equal reverse) in Hp. rewrite !reverse_app in Hp.
  cbn in Hp. discriminate.
Qed.

Lemma prefixes_frame_path (fp : string) (i : nat) :
  Path.prefixes "" (frame_path fp i) =
  Path.prefixes "" (images_dir fp) ++ [images_dir fp].
Proof.
  unfold frame_path. rewrite prefixes_app. f_equal.
  change ("" +:+ images_dir fp) with (images_dir fp).
  change ("/" +:+ Str.of_nat i +:+ ".png")
    with (String "/" (Str.of_nat i +:+ ".png")).
  rewrite prefixes_cons. change (Ascii.eqb "/" "/") with true.
  cbv iota. f_equal. apply prefixes_no_slash.
  by rewrite contains_app, of_nat_no_slash.
Qed.

Lemma dirname_frame_path (fp : string) (i : nat) :
  Path.dirname (frame_path fp i) = images_dir fp.
Proof.
  unfold Path.dirname. by rewrite prefixes_frame_path, last_snoc.
Qed.


End PathFacts.

(** ** How the primitives change the file system *)

Section WorldFacts.
Context `{Collaborators}.

Lemma written_refl (o : option node) : written o o.
Proof. by left. Qed.

Lemma written_trans (o m n : option node) :
  written o m → written m n → written o n.
Proof.
  unfold written.
  intros [->|[[-> ->]|[[Ho [f ->]]|[Ho [f ->]]]]]
         [->|[[? ->]|[[Hm [g ->]]|[Hm [g ->]]]]];
    try discriminate; eauto 10.
Qed.

Lemma written_is_Some (o n : option node) :
  written o n → is_Some o → is_Some n.
Proof.
  intros [->|[[-> ->]|[[_ [f ->]]|[_ [f ->]]]]] Ho; eauto.
Qed.

Lemma written_dir (o n : option node) :
  written o n → o = Some Dir → n = Some Dir.
Proof.
  intros [->|[[-> ->]|[[Ho _]|[Ho _]]]] Hd; done.
Qed.

Lemma evolves_refl (w : world) : evolves w w.
Proof. intros p. apply written_refl. Qed.

Lemma evolves_trans (w1 w2 w3 : world) :
  evolves w1 w2 → evolves w2 w3 → evolves w1 w3.
Proof. intros H12 H23 p. eapply written_trans; [apply H12 | apply H23]. Qed.

Lemma keeps_ret {A : Type} (a : A) : keeps (mret a).
Proof. intros w r w' [= _ <-]. apply evolves_refl. Qed.

Lemma keeps_raise {A : Type} (e : exn) : keeps (raise (A:=A) e).
Proof. intros w r w' [= _ <-]. apply evolves_refl. Qed.

Lemma keeps_lift {A : Type} (r : result A) : keeps (lift r).
Proof. intros w r' w' [= _ <-]. apply evolves_refl. Qed.

Lemma keeps_bind {A B : Type} (m : M A) (f : A → M B) :
  keeps m → (∀ a, keeps (f a)) → keeps (m ≫= f).
Proof.
  intros Hm Hf w r w'. rewrite bind_run.
  destruct (m w) as [[a|e] w1] eqn:Hmw.
  - intros Hfa. eapply evolves_trans; [by eapply Hm | by eapply Hf].
  - intros [= _ <-]. by eapply Hm.
Qed.

Lemma keeps_exists (p : string) : keeps (os_path_exists p).
Proof. intros w r w' [= _ <-]. apply evolves_refl. Qed.

Lemma keeps_print (s : string) : keeps (print s).
Proof. intros w r w' [= _ <-] p. apply written_refl. Qed.

Lemma keeps_getitem {A : Type} (xs : list A) (i : nat) :
  keeps (getitem xs i).
Proof.
  unfold getitem. destruct (xs !! i); [apply keeps_ret | apply keeps_raise].
Qed.

Lemma keeps_Image_open (name : string) : keeps (Image_open name).
Proof.
  intros w r w'. unfold Image_open.
  destruct (files w !! name) as [[| |]|]; intros [= _ <-];
    apply evolves_refl.
Qed.

Lemma written_insert (fs : gmap string node) (p q : string) (n : node) :
  written (fs !! p) (Some n) →
  written (fs !! q) (<[p := n]> fs !! q).
Proof.
  intros Hn. destruct (decide (p = q)) as [->|Hpq].
  - by rewrite lookup_insert_eq.
  - rewrite lookup_insert_ne by done. apply written_refl.
Qed.

Lemma write_file_run (p : string) (n : node) (w : world) r w' :
  write_file p n w = (r, w') →
  (r = Ok () ∧ w' = set_files w (<[p := n]> (files w))
   ∧ files w !! p ≠ Some Dir)
  ∨ (∃ e, r = Raise e ∧ w' = w).
Proof.
  unfold write_file.
  destruct (files w !! p) as [[| |]|] eqn:Hp;
    repeat case_match; intros [= <- <-]; eauto.
Qed.

Lemma keeps_write_png (p : string) (fig : Figure) :
  keeps (write_file p (Png fig)).
Proof.
  intros w r w' Hw.
  apply write_file_run in Hw as [(_ & -> & Hp)|(e & _ & ->)];
    [|apply evolves_refl].
  intros q. cbn. apply written_insert. right; right; left. eauto.
Qed.

Lemma keeps_write_gif (p : string) (frames : list Figure) :
  keeps (write_file p (Gif frames 100 0)).
Proof.
  intros w r w' Hw.
  apply write_file_run in Hw as [(_ & -> & Hp)|(e & _ & ->)];
    [|apply evolves_refl].
  intros q. cbn. apply written_insert. right; right; right. eauto.
Qed.

Lemma make_ancestors_written (l : list string) (fs : gmap string node) r fs' :
  make_ancestors l fs = (r, fs') → ∀ p, written (fs !! p) (fs' !! p).
Proof.
  revert fs. induction l as [|a l IH]; intros fs; cbn.
  - intros [= _ <-] p. apply written_refl.
  - destruct (fs !! a) as [[| |]|] eqn:Ha.
    + apply IH.
    + intros [= _ <-] p. apply written_refl.
    + intros [= _ <-] p. apply written_refl.
    + intros Hl p. eapply written_trans; [|by eapply IH].
      apply written_insert. rewrite Ha. right; left. done.
Qed.

Lemma keeps_makedirs (p : string) : keeps (os_makedirs p).
Proof.
  intros w r w'. unfold os_makedirs.
  case_bool_decide; [intros [= _ <-]; apply evolves_refl|].
  destruct (make_ancestors (Path.ancestors p) (files w)) as [[[]|e] fs]
    eqn:Hfs.
  - pose proof (make_ancestors_written _ _ _ _ Hfs) as Hw.
    destruct (fs !! p) eqn:Hp; intros [= _ <-]; intros q; cbn; [apply Hw|].
    eapply written_trans; [apply Hw|].
    apply written_insert. rewrite Hp. right; left. done.
  - intros [= _ <-]. intros q. cbn. by eapply make_ancestors_written.
Qed.

Lemma keeps_for_range_from {St : Type} (body : nat → St → M St) :
  (∀ i s, keeps (body i s)) →
  ∀ count start s, keeps (for_range_from start count body s).
Proof.
  intros Hb. induction count as [|count IH]; intros start s; cbn.
  - apply keeps_ret.
  - apply keeps_bind; [apply Hb | intros; apply IH].
Qed.

Lemma keeps_for_each {A St : Type} (body : A → St → M St) :
  (∀ x s, keeps (body x s)) → ∀ xs s, keeps (for_each xs body s).
Proof.
  intros Hb. induction xs as [|x xs IH]; intros s; cbn.
  - apply keeps_ret.
  - apply keeps_bind; [apply Hb | intros; apply IH].
Qed.

Lemma keeps_check_filepaths (fp : string) : keeps (check_filepaths fp).
Proof.
  unfold check_filepaths.
  repeat first
    [ apply keeps_bind; [|intros ?] | apply keeps_exists
    | apply keeps_makedirs | apply keeps_ret | case_match ].
Qed.

Lemma keeps_render_frames (fp : string) (n : nat)
    (frame : nat → result Figure) :
  keeps (render_frames fp n frame).
Proof.
  apply keeps_for_range_from. intros i s.
  repeat first
    [ apply keeps_bind; [|intros ?] | apply keeps_lift
    | apply keeps_write_png | apply keeps_ret ].
Qed.

Lemma keeps_encode (fp base : string) (names : list string) :
  keeps (encode fp base names).
Proof.
  unfold encode.
  repeat first
    [ apply keeps_bind; [|intros ?] | apply keeps_for_each; intros ? ?
    | apply keeps_Image_open | apply keeps_getitem
    | apply keeps_write_gif | apply keeps_ret ].
Qed.

Lemma keeps_body (c : call) (base : string) : keeps (body c base).
Proof.
  unfold body.
  repeat first
    [ apply keeps_render_frames | apply keeps_encode | apply keeps_lift
    | apply keeps_bind; [|intros ?] ].
Qed.

Lemma keeps_refuse (c : call) : keeps (refuse c).
Proof.
  unfold refuse. destruct (raises_on_bad_name c).
  - apply keeps_raise.
  - apply keeps_bind; [apply keeps_print | intros; apply keeps_ret].
Qed.

Lemma keeps_run (c : call) : keeps (run c).
Proof.
  intros w r w'. rewrite run_blocks. revert w r w'.
  apply keeps_bind; [apply keeps_check_filepaths|].
  intros _. destruct (resolve_name (call_filename c));
    [apply keeps_body | apply keeps_refuse].
Qed.

End WorldFacts.

(** ** The frame loop and the encoding, step by step *)

Section FrameFacts.
Context `{Collaborators}.

Lemma set_files_id (w : world) : set_files w (files w) = w.
Proof. by destruct w. Qed.

Lemma lookup_write_frames_other (fp : string) (figs : list Figure) :
  ∀ start fs p,
    (∀ j, j < length figs → p ≠ frame_path fp (start + j)) →
    write_frames fp start figs fs !! p = fs !! p.
Proof.
  induction figs as [|fig figs IH]; intros start fs p Hp; [done|]. cbn.
  rewrite IH.
  - rewrite lookup_insert_ne; [done|].
    specialize (Hp 0). rewrite Nat.add_0_r in Hp.
    intros Heq. apply Hp; [cbn; lia | by symmetry].
  - intros j Hj. rewrite Nat.add_succ_comm. apply Hp. cbn. lia.
Qed.

Lemma lookup_write_frames_frame (fp : string) (figs : list Figure) :
  ∀ start fs j fig,
    figs !! j = Some fig →
    write_frames fp start figs fs !! frame_path fp (start + j)
    = Some (Png fig).
Proof.
  induction figs as [|fig0 figs IH]; intros start fs [|j] fig Hj;
    try discriminate; cbn in *.
  - injection Hj as ->. rewrite lookup_write_frames_other.
    + by rewrite Nat.add_0_r, lookup_insert_eq.
    + intros j Hj Heq. apply frame_path_inj in Heq. lia.
  - rewrite <- Nat.add_succ_comm. by apply IH.
Qed.

(** What the frame loop has done when it stops, whichever way it stops:
    it saved the figures of an initial run of indices, and then either
    reached the end, or the plot of the next index raised, or saving it
    did. *)
Lemma render_loop_run (fp : string) (frame : nat → result Figure) :
  ∀ count start names w r w',
    for_range_from start count (λ i names,
      fig ← lift (frame i);
      savefig fig (frame_path fp i);;
      mret (names ++ [frame_path fp i])) names w = (r, w') →
    ∃ figs,
      (∀ j fig, figs !! j = Some fig → frame (start + j) = Ok fig)
      ∧ w' = set_files w (write_frames fp start figs (files w))
      ∧ match r with
        | Ok names' =>
            length figs = count
            ∧ names' = names ++ (frame_path fp <$> seq start count)
        | Raise e =>
            length figs < count
            ∧ (frame (start + length figs) = Raise e
               ∨ ∃ fig,
                   frame (start + length figs) = Ok fig
                   ∧ savefig fig (frame_path fp (start + length figs)) w'
                     = (Raise e, w'))
        end.
Proof.
  induction count as [|count IH]; intros start names w r w'.
  - intros [= <- <-]. exists []. cbn.
    rewrite set_files_id, app_nil_r. split_and!; [|done..].
    intros j fig Hj. discriminate.
  - cbn [for_range_from]. rewrite bind_run, bind_lift.
    destruct (frame start) as [fig|e] eqn:Hfig.
    + rewrite bind_run.
      destruct (savefig fig (frame_path fp start) w) as [r1 w1] eqn:Hsave.
      pose proof Hsave as Hsave'. unfold savefig in Hsave'.
      apply write_file_run in Hsave' as [(-> & -> & _)|(e & -> & ->)].
      * cbv beta iota. rewrite ret_run. intros Hrest.
        apply IH in Hrest as (figs & Hfigs & -> & Hr).
        exists (fig :: figs). split_and!.
        -- intros [|j] fig' Hj; cbn in Hj.
           ++ injection Hj as <-. by rewrite Nat.add_0_r.
           ++ rewrite <- Nat.add_succ_comm. by apply Hfigs.
        -- done.
        -- destruct r as [names'|e]; cbn [length].
           ++ destruct Hr as [-> ->]. split; [done|].
              by rewrite <- app_assoc.
           ++ rewrite <- Nat.add_succ_comm. split; [lia|]. apply Hr.
      * intros [= <- <-]. exists []. cbn.
        rewrite set_files_id, Nat.add_0_r. split_and!; [|done|lia|eauto].
        intros j fig' Hj. discriminate.
    + intros [= <- <-]. exists []. cbn.
      rewrite set_files_id, Nat.add_0_r. split_and!; [|done|lia|eauto].
      intros j fig' Hj. discriminate.
Qed.

(** Saving a frame succeeds when the scratch directory is a directory
    and the frame's own path is not. *)
Lemma savefig_frame_ok (fp : string) (i : nat) (fig : Figure) (w : world) :
  files w !! images_dir fp = Some Dir →
  files w !! frame_path fp i ≠ Some Dir →
  savefig fig (frame_path fp i) w
  = (Ok (), set_files w (<[frame_path fp i := Png fig]> (files w))).
Proof.
  intros Hdir Hp. unfold savefig, write_file.
  rewrite dirname_frame_path, Hdir.
  rewrite bool_decide_false by apply images_dir_nonempty.
  by destruct (files w !! frame_path fp i) as [[| |]|].
Qed.

(** Reading the saved frames back. *)
Lemma open_frames_run (w : world) (names : list string)
    (figs : list Figure) :
  Forall2 (λ n fig, files w !! n = Some (Png fig)) names figs →
  ∀ acc,
    for_each names (λ n images,
      im ← Image_open n; mret (images ++ [im])) acc w
    = (Ok (acc ++ ((λ fig, [fig]) <$> figs)), w).
Proof.
  induction 1 as [|n fig names figs Hn _ IH]; intros acc; cbn.
  - by rewrite app_nil_r.
  - rewrite bind_run, bind_run. unfold Image_open at 1. rewrite Hn.
    cbv beta iota. rewrite ret_run. cbv beta iota.
    rewrite IH. by rewrite <- app_assoc.
Qed.

Lemma concat_singletons {A : Type} (l : list A) :
  concat ((λ x, [x]) <$> l) = l.
Proof. induction l as [|x l IH]; [done|]. cbn. by rewrite IH. Qed.

Lemma encode_run (fp base : string) (w : world) (names : list string)
    (figs : list Figure) :
  Forall2 (λ n fig, files w !! n = Some (Png fig)) names figs →
  encode fp base names w =
  match figs with
  | [] => (Raise IndexError, w)
  | _ :: _ =>
      (write_file (gif_path fp base) (Gif figs 100 0);; mret PyNone) w
  end.
Proof.
  intros Hnames. unfold encode.
  rewrite bind_run, (open_frames_run _ _ _ Hnames). cbn [app].
  destruct figs as [|fig figs]; [done|].
  cbn [fmap list_fmap]. rewrite bind_getitem. cbn [lookup list_lookup].
  unfold Image_save. cbn [drop]. rewrite drop_0, concat_singletons. done.
Qed.

Lemma frames_on_disk (fp : string) (figs : list Figure)
    (fs : gmap string node) :
  Forall2 (λ n fig, write_frames fp 0 figs fs !! n = Some (Png fig))
    (frame_path fp <$> seq 0 (length figs)) figs.
Proof.
  apply Forall2_same_length_lookup_2.
  - by rewrite length_fmap, length_seq.
  - intros j n fig Hn Hfig. rewrite list_lookup_fmap in Hn.
    apply fmap_Some in Hn as (i & Hi & ->).
    apply lookup_seq in Hi as [-> _].
    by apply lookup_write_frames_frame.
Qed.

End FrameFacts.

(** ** A whole job *)

Section JobFacts.
Context `{Collaborators}.

Lemma run_inv (c : call) (w : world) r w' :
  run c w = (r, w') →
  ∃ r1 w1,
    check_filepaths (call_filepath c) w = (r1, w1)
    ∧ match r1 with
      | Raise e => r = Raise e ∧ w' = w1
      | Ok _ =>
          match resolve_name (call_filename c) with
          | Some base => body c base w1 = (r, w')
          | None => refuse c w1 = (r, w')
          end
      end.
Proof.
  rewrite run_blocks. unfold blocks. rewrite bind_run.
  destruct (check_filepaths (call_filepath c) w) as [[[]|e] w1].
  - intros Hrest. exists (Ok ()), w1. split; [done|].
    by destruct (resolve_name (call_filename c)).
  - intros [= <- <-]. by exists (Raise e), w1.
Qed.

Lemma prepare_axis (c : call) n frame :
  prepare c = Ok (n, frame) →
  Xr.dim_size (call_dataset c) (call_axis c) = Some n.
Proof.
  destruct c; cbn [prepare call_dataset call_axis];
    unfold Xr.dim_size, Xr.coord_values; intros Hp;
    repeat
      (match type of Hp with
       | context [Xr.assoc ?k ?l] => destruct (Xr.assoc k l)
       | context [auto_ortho ?l] => destruct (auto_ortho l)
       | context [match ?o with Some _ => _ | None => _ end] => destruct o
       end; cbn in Hp; try discriminate);
    by inversion Hp.
Qed.


(** How everything after the name check can end. [figs] are the
    figures saved before the loop stopped. *)
Lemma body_inv (c : call) (base : string) (w1 : world) r w' n frame :
  prepare c = Ok (n, frame) →
  body c base w1 = (r, w') →
  let fp := call_filepath c in
  ∃ figs,
    (∀ j fig, figs !! j = Some fig → frame j = Ok fig)
    ∧ let w2 := set_files w1 (write_frames fp 0 figs (files w1)) in
      (length figs = n ∧ n = 0 ∧ r = Raise IndexError ∧ w' = w1)
      ∨ (length figs = n ∧ 0 < n ∧ r = Ok PyNone
         ∧ files w2 !! gif_path fp base ≠ Some Dir
         ∧ w' = set_files w1
                  (<[gif_path fp base := Gif figs 100 0]>
                     (write_frames fp 0 figs (files w1))))
      ∨ (length figs = n ∧ 0 < n ∧ w' = w2
         ∧ ∃ e, r = Raise e
                ∧ write_file (gif_path fp base) (Gif figs 100 0) w2
                  = (Raise e, w2))
      ∨ (length figs < n ∧ w' = w2
         ∧ ∃ e, r = Raise e
                ∧ (frame (length figs) = Raise e
                   ∨ ∃ fig,
                       frame (length figs) = Ok fig
                       ∧ savefig fig (frame_path fp (length figs)) w2
                         = (Raise e, w2))).
Proof.
  intros Hprep. unfold body. rewrite bind_lift, Hprep. cbn [fst snd].
  rewrite bind_run. unfold render_frames, for_range.
  destruct (for_range_from 0 n _ [] w1) as [r2 w2] eqn:Hloop.
  apply render_loop_run in Hloop as (figs & Hfigs & -> & Hr).
  intros Hrest. exists figs. split; [done|]. cbn zeta.
  destruct r2 as [names|e].
  - destruct Hr as [Hlen ->]. cbn [app] in Hrest.
    rewrite <- Hlen in Hrest.
    erewrite encode_run in Hrest by apply frames_on_disk.
    destruct figs as [|fig figs].
    + injection Hrest as <- <-. left. cbn in Hlen. subst n.
      cbn. by rewrite set_files_id.
    + right. rewrite bind_run in Hrest.
      destruct (write_file _ _ _) as [r3 w3] eqn:Hsave in Hrest.
      pose proof Hsave as Hsave'.
      apply write_file_run in Hsave' as [(-> & -> & Hnd)|(e & -> & ->)].
      * injection Hrest as <- <-. left.
        split_and!; [done | cbn in Hlen; lia | done | done | done].
      * injection Hrest as <- <-. right; left.
        split_and!; [done | cbn in Hlen; lia | done |]. eauto.
  - injection Hrest as <- <-. do 3 right.
    destruct Hr as [Hlen Hr]. split_and!; [done..|]. exists e. done.
Qed.

End JobFacts.

Section Completed.
Context `{Collaborators}.

Lemma completes_inv (c : call) (w : world) (v : pyval) (w' : world) :
  completes c w v w' →
  ∃ w1 base n frame figs,
    check_filepaths (call_filepath c) w = (Ok (), w1)
    ∧ resolve_name (call_filename c) = Some base
    ∧ prepare c = Ok (n, frame)
    ∧ length figs = n ∧ 0 < n
    ∧ (∀ j fig, figs !! j = Some fig → frame j = Ok fig)
    ∧ v = PyNone
    ∧ w' = set_files w1 (job_files (call_filepath c) base figs (files w1)).
Proof.
  intros [Hrun [base Hbase]].
  apply run_inv in Hrun as (r1 & w1 & Hdirs & Hrest).
  destruct r1 as [[]|e]; [|by destruct Hrest]. rewrite Hbase in Hrest.
  destruct (prepare c) as [[n frame]|e] eqn:Hprep.
  - eapply body_inv in Hrest as (figs & Hfigs & Hcases); [|done].
    destruct Hcases as
      [(_ & _ & [=] & _)
      |[(Hlen & Hn & [= <-] & _ & ->)
       |[(_ & _ & _ & e & [=] & _)|(_ & _ & e & [=] & _)]]].
    by exists w1, base, n, frame, figs.
  - unfold body in Hrest. rewrite bind_lift, Hprep in Hrest. done.
Qed.


Lemma lookup_job_files_frame (fp base : string) figs fs i fig :
  figs !! i = Some fig →
  job_files fp base figs fs !! frame_path fp i = Some (Png fig).
Proof.
  intros Hi. unfold job_files.
  rewrite lookup_insert_ne by apply gif_path_not_frame_path.
  by apply (lookup_write_frames_frame fp figs 0).
Qed.

Lemma lookup_job_files_other (fp base : string) figs fs p :
  p ≠ gif_path fp base →
  (∀ i, i < length figs → p ≠ frame_path fp i) →
  job_files fp base figs fs !! p = fs !! p.
Proof.
  intros Hgif Hframes. unfold job_files.
  rewrite lookup_insert_ne by done.
  by apply lookup_write_frames_other.
Qed.


End Completed.

(** ** The directory check *)

Section DirFacts.
Context `{Collaborators}.

Lemma prefixes_shorter (p acc a : string) :
  a ∈ Path.prefixes acc p →
  String.length a < String.length acc + String.length p.
Proof.
  revert acc. induction p as [|c p IH]; intros acc.
  - cbn. by intros ?%elem_of_nil.
  - rewrite prefixes_cons. cbn [String.length].
    destruct (Ascii.eqb c "/").
    + intros [->|Ha]%elem_of_cons; [lia|].
      apply IH in Ha. rewrite length_app_s in Ha. cbn in Ha. lia.
    + intros Ha. apply IH in Ha. rewrite length_app_s in Ha.
      cbn in Ha. lia.
Qed.

Lemma ancestors_shorter (p a : string) :
  a ∈ Path.ancestors p → String.length a < String.length p.
Proof.
  unfold Path.ancestors. intros [_ Ha]%list_elem_of_filter.
  by apply prefixes_shorter in Ha.
Qed.

Lemma not_own_ancestor (p : string) : p ∉ Path.ancestors p.
Proof. intros Hp%ancestors_shorter. lia. Qed.


Lemma make_ancestors_other (l : list string) (fs : gmap string node) r fs' p :
  make_ancestors l fs = (r, fs') → p ∉ l → fs' !! p = fs !! p.
Proof.
  revert fs. induction l as [|a l IH]; intros fs; cbn.
  - by intros [= _ <-].
  - intros Hrun [Hpa Hpl]%not_elem_of_cons.
    destruct (fs !! a) as [[| |]|] eqn:Ha.
    + by apply IH.
    + by injection Hrun as _ <-.
    + by injection Hrun as _ <-.
    + rewrite (IH _ Hrun Hpl). by apply lookup_insert_ne.
Qed.

Lemma make_ancestors_raises (l : list string) (fs : gmap string node) e fs' :
  make_ancestors l fs = (Raise e, fs') → e = NotADirectoryError.
Proof.
  revert fs. induction l as [|a l IH]; intros fs; cbn; [done|].
  destruct (fs !! a) as [[| |]|]; eauto; by intros [= <- _].
Qed.



Lemma makedirs_absent_run (p : string) (w : world) r w' :
  files w !! p = None →
  os_makedirs p w = (r, w') →
  r ≠ Raise FileExistsError
  ∧ (r = Ok () → files w' !! p = Some Dir).
Proof.
  intros Habsent. unfold os_makedirs.
  case_bool_decide; [by intros [= <- _]|].
  destruct (make_ancestors _ _) as [[[]|e] fs] eqn:Hanc.
  - rewrite (make_ancestors_other _ _ _ _ _ Hanc), Habsent
      by apply not_own_ancestor.
    intros [= <- <-]. split; [done|]. intros _. apply lookup_insert_eq.
  - apply make_ancestors_raises in Hanc as ->. by intros [= <- _].
Qed.

Lemma ensure_dir_present (p : string) (w : world) :
  is_Some (files w !! p) → ensure_dir p w = (Ok (), w).
Proof.
  intros Hp. unfold ensure_dir, os_path_exists. rewrite bind_run.
  by rewrite bool_decide_true.
Qed.

Lemma ensure_dir_absent (p : string) (w : world) :
  files w !! p = None → ensure_dir p w = os_makedirs p w.
Proof.
  intros Hp. unfold ensure_dir, os_path_exists. rewrite bind_run.
  rewrite bool_decide_false; [done|]. rewrite Hp. by intros [? ?].
Qed.

Lemma ensure_dir_run (p : string) (w : world) r w' :
  ensure_dir p w = (r, w') →
  r ≠ Raise FileExistsError ∧ (r = Ok () → is_Some (files w' !! p)).
Proof.
  destruct (files w !! p) as [n|] eqn:Hp.
  - rewrite ensure_dir_present by eauto. intros [= <- <-]. eauto.
  - rewrite ensure_dir_absent by done. intros Hrun.
    apply makedirs_absent_run in Hrun as [Hr Hdir]; [|done].
    split; [done|]. intros Hok. rewrite Hdir; eauto.
Qed.

Lemma keeps_ensure_dir (p : string) : keeps (ensure_dir p).
Proof.
  apply keeps_bind; [apply keeps_exists|].
  intros []; [apply keeps_ret | apply keeps_makedirs].
Qed.

Lemma check_filepaths_ensure (fp : string) (w : world) :
  check_filepaths fp w = (ensure_dir fp;; ensure_dir (images_dir fp)) w.
Proof.
  unfold check_filepaths, ensure_dir. by rewrite <- bind_assoc.
Qed.

Lemma check_filepaths_present (fp : string) (w : world) :
  is_Some (files w !! fp) → is_Some (files w !! images_dir fp) →
  check_filepaths fp w = (Ok (), w).
Proof.
  intros Hfp Him. rewrite check_filepaths_ensure, bind_run.
  rewrite ensure_dir_present by done. by apply ensure_dir_present.
Qed.

Lemma check_filepaths_run (fp : string) (w : world) r w' :
  check_filepaths fp w = (r, w') →
  r ≠ Raise FileExistsError
  ∧ (r = Ok () →
       is_Some (files w' !! fp) ∧ is_Some (files w' !! images_dir fp)).
Proof.
  rewrite check_filepaths_ensure, bind_run.
  destruct (ensure_dir fp w) as [[[]|e] w1] eqn:H1.
  - intros H2. apply ensure_dir_run in H1 as [_ Hfp].
    pose proof (keeps_ensure_dir _ _ _ _ H2 fp) as Hkeep.
    apply ensure_dir_run in H2 as [Hr Him]. split; [done|].
    intros Hok. split; [|by apply Him].
    eapply written_is_Some; [apply Hkeep | by apply Hfp].
  - intros [= <- <-]. apply ensure_dir_run in H1 as [Hr _]. by split.
Qed.


(** Whatever a driver does after the directory check, the two
    directories are still there when it stops. *)
Lemma run_keeps_dirs (c : call) (w : world) r w' w1 :
  run c w = (r, w') →
  check_filepaths (call_filepath c) w = (Ok (), w1) →
  is_Some (files w' !! call_filepath c)
  ∧ is_Some (files w' !! images_dir (call_filepath c)).
Proof.
  intros Hrun Hdirs.
  apply run_inv in Hrun as (r1 & w1' & Hdirs' & Hrest).
  rewrite Hdirs in Hdirs'. injection Hdirs' as <- <-.
  assert (evolves w1 w') as Hev.
  { destruct (resolve_name (call_filename c)).
    - by eapply keeps_body.
    - by eapply keeps_refuse. }
  apply check_filepaths_run in Hdirs as [_ Hthere].
  destruct Hthere as [Hfp Him]; [done|].
  split; (eapply written_is_Some; [apply Hev | done]).
Qed.

End DirFacts.

(** ** Facts about single drivers *)

Section DriverFacts.
Context `{Collaborators}.

Lemma ok_resolved (c : call) (w w' : world) (v : pyval) :
  raises_on_bad_name c = true →
  run c w = (Ok v, w') →
  completes c w v w'.
Proof.
  intros Hraises Hrun. split; [done|].
  apply run_inv in Hrun as (r1 & w1 & _ & Hrest).
  destruct r1 as [[]|e]; [|by destruct Hrest].
  destruct (resolve_name (call_filename c)); [eauto|].
  unfold refuse in Hrest. by rewrite Hraises in Hrest.
Qed.

Lemma dim_size_coord_values (ds : Dataset Data) (d : string) (n : nat) :
  Xr.dim_size ds d = Some n ↔
  ∃ vs, Xr.coord_values ds d = Ok vs ∧ length vs = n.
Proof.
  unfold Xr.dim_size, Xr.coord_values.
  destruct (Xr.assoc d (dims ds)) as [vs|]; cbn.
  - split; [intros [= <-]; eauto | by intros (? & [= <-] & <-)].
  - split; [done | by intros (? & [=] & _)].
Qed.

Lemma known_dim_size (ds : Dataset Data) (d : string) (i : nat) :
  Xr.known_dim ds (d, i) = bool_decide (is_Some (Xr.dim_size ds d)).
Proof.
  unfold Xr.known_dim, Xr.dim_size. cbn [fst].
  destruct (Xr.assoc d (dims ds)) as [vs|]; symmetry.
  - apply bool_decide_eq_true. cbn. eauto.
  - apply bool_decide_eq_false. cbn. by intros [? ?].
Qed.

Lemma in_range_dim_size (ds : Dataset Data) (d : string) (i n : nat) :
  Xr.dim_size ds d = Some n → Xr.in_range ds (d, i) = (i <? n).
Proof.
  unfold Xr.in_range, Xr.dim_size. cbn.
  destruct (Xr.assoc d (dims ds)); cbn; [|done]. by intros [= <-].
Qed.

Lemma in_range_inv (ds : Dataset Data) (d : string) (i : nat) :
  Xr.in_range ds (d, i) = true →
  ∃ n, Xr.dim_size ds d = Some n ∧ i < n.
Proof.
  unfold Xr.in_range, Xr.dim_size. cbn.
  destruct (Xr.assoc d (dims ds)) as [vs|]; cbn; [|done].
  intros Hlt%Nat.ltb_lt. eauto.
Qed.

Lemma lag_slice_ok (lag_ds : Dataset Data) (i : nat) lm :
  lag_slice lag_ds i = Ok lm →
  selected lm
  = selected lag_ds ++ [("time_win", i); ("lag", 0); ("win_start", i)]
  ∧ (∃ n, Xr.dim_size lag_ds "time_win" = Some n ∧ i < n)
  ∧ (∃ n, Xr.dim_size lag_ds "lag" = Some n ∧ 0 < n)
  ∧ (∃ n, Xr.dim_size lag_ds "win_start" = Some n ∧ i < n).
Proof.
  unfold lag_slice, Xr.isel.
  destruct (forallb (Xr.known_dim lag_ds) _); [|done]. cbn [negb].
  destruct (forallb (Xr.in_range lag_ds) _) eqn:Hrange; [|done].
  cbn [negb]. intros [= <-]. split; [done|].
  cbn [forallb] in Hrange.
  apply andb_true_iff in Hrange as [H1 Hrange].
  apply andb_true_iff in Hrange as [H2 Hrange].
  apply andb_true_iff in Hrange as [H3 _].
  split_and!; by apply in_range_inv.
Qed.


Lemma prepare_lag_mat (lag_ds : Dataset Data) fp fn kw n frame :
  prepare (LagMatTime lag_ds fp fn kw) = Ok (n, frame) →
  Xr.dim_size lag_ds "time_win" = Some n
  ∧ frame = λ i, lm ← lag_slice lag_ds i; plot_lag_mat_time lm kw.
Proof.
  intros Hprep. split; [by apply prepare_axis in Hprep|].
  cbn [prepare] in Hprep.
  destruct (Xr.coord_values lag_ds "time_win"); [|done].
  by injection Hprep as _ <-.
Qed.

Lemma prepare_data_globe (ds : Dataset Data) fp fn los comps ot dn col kw
    n frame :
  prepare (DataGlobe ds fp fn los comps ot dn col kw) = Ok (n, frame) →
  ∃ sts o,
    match los with
    | None => Xr.coord_values ds "station" = Ok sts
    | Some l => sts = l
    end
    ∧ match ot with
      | None => auto_ortho sts = Ok o
      | Some o' => o = o'
      end
    ∧ Xr.dim_size ds "time" = Some n
    ∧ frame = λ i, plot_data_globe ds sts comps i o dn col kw.
Proof.
  intros Hprep. pose proof (prepare_axis _ _ _ Hprep) as Hax.
  cbn [prepare] in Hprep.
  destruct los as [l|].
  - rewrite result_bind_ok in Hprep.
    destruct (Xr.coord_values ds "time"); [|done].
    rewrite result_bind_ok in Hprep.
    destruct ot as [o|].
    + rewrite result_bind_ok in Hprep. injection Hprep as _ <-.
      by exists l, o.
    + destruct (auto_ortho l) as [o|] eqn:Ho; [|done].
      rewrite result_bind_ok in Hprep. injection Hprep as _ <-.
      by exists l, o.
  - destruct (Xr.coord_values ds "station") as [l|]; [|done].
    rewrite result_bind_ok in Hprep.
    destruct (Xr.coord_values ds "time"); [|done].
    rewrite result_bind_ok in Hprep.
    destruct ot as [o|].
    + rewrite result_bind_ok in Hprep. injection Hprep as _ <-.
      by exists l, o.
    + destruct (auto_ortho l) as [o|] eqn:Ho; [|done].
      rewrite result_bind_ok in Hprep. injection Hprep as _ <-.
      by exists l, o.
Qed.

(** Two calls that agree on everything the blocks look at run alike. *)
Lemma run_congruence (c1 c2 : call) (w : world) :
  call_filepath c1 = call_filepath c2 →
  call_filename c1 = call_filename c2 →
  raises_on_bad_name c1 = raises_on_bad_name c2 →
  prepare c1 = prepare c2 →
  run c1 w = run c2 w.
Proof.
  intros Hfp Hfn Hraise Hprep. rewrite !run_blocks.
  unfold blocks, body, refuse. by rewrite Hfp, Hfn, Hraise, Hprep.
Qed.

End DriverFacts.

(** * The claims *)

Section Claims.
Context `{Collaborators}.



(** C4.  When the iteration axis is empty and the driver gets as far as
    the encoding (directories resolved, name accepted, constants and
    orientation obtained), taking the first of the zero opened images
    raises [IndexError], the exception the source has for an empty
    animation; the world is as the directory check left it, so no
    animation file, and no other file, is written. *)
Theorem empty_axis_fails (c : call) (w w1 : world) (base : string)
    (p : nat * (nat → result Figure)) :
  check_filepaths (call_filepath c) w = (Ok (), w1) →
  resolve_name (call_filename c) = Some base →
  prepare c = Ok p →
  Xr.dim_size (call_dataset c) (call_axis c) = Some 0 →
  run c w = (Raise IndexError, w1)
  ∧ encode (call_filepath c) base [] w1 = (Raise IndexError, w1).
Proof.
  intros Hdirs Hbase Hprep Hzero. destruct p as [n frame].
  pose proof (prepare_axis _ _ _ Hprep) as Hax.
  rewrite Hzero in Hax. injection Hax as <-.
  split; [|done].
  rewrite run_blocks. unfold blocks.
  rewrite bind_run, Hdirs, Hbase. unfold body.
  by rewrite bind_lift, Hprep.
Qed.



(** C10.  A run that goes through returns [None]; what it wrote is to be
    found on disk only.  (The one other value a driver can return is the
    refusal message of [connections_globe_gif], for a name the check
    refuses.) *)
Theorem returns_none (c : call) (w w' : world) (v : pyval) :
  run c w = (Ok v, w') →
  (is_Some (resolve_name (call_filename c)) → v = PyNone)
  ∧ (resolve_name (call_filename c) = None →
       raises_on_bad_name c = false ∧ v = PyStr name_error).
Proof.
  intros Hrun. split.
  - intros Hname.
    assert (completes c w v w') as Hdone by done.
    by apply completes_inv in Hdone
      as (_ & _ & _ & _ & _ & _ & _ & _ & _ & _ & _ & -> & _).
  - intros Hname.
    apply run_inv in Hrun as (r1 & w1 & _ & Hrest).
    destruct r1 as [[]|e]; [|by destruct Hrest].
    rewrite Hname in Hrest. unfold refuse in Hrest.
    destruct (raises_on_bad_name c); [done|].
    by injection Hrest as <- _.
Qed.


(** C8.  The defaults of [data_globe_gif].  Leaving [list_of_stations]
    out is the same as passing all the stations of the dataset, and
    leaving [ortho_trans] out is the same as passing what [auto_ortho]
    makes of the station list in effect; in a run that returns, every
    frame is the plot for that station list and that orientation. *)
Theorem data_globe_defaults (ds : Dataset Data) (fp fn : string)
    (comps : list string) (dn col : bool) (kw : Kwargs) :
  (∀ all ot w,
     Xr.coord_values ds "station" = Ok all →
     data_globe_gif ds fp fn None comps ot dn col kw w
     = data_globe_gif ds fp fn (Some all) comps ot dn col kw w)
  ∧ (∀ sts o w,
       auto_ortho sts = Ok o →
       data_globe_gif ds fp fn (Some sts) comps None dn col kw w
       = data_globe_gif ds fp fn (Some sts) comps (Some o) dn col kw w)
  ∧ (∀ los ot w v w',
       data_globe_gif ds fp fn los comps ot dn col kw w = (Ok v, w') →
       ∃ sts o figs,
         match los with
         | None => Xr.coord_values ds "station" = Ok sts
         | Some l => sts = l
         end
         ∧ match ot with
           | None => auto_ortho sts = Ok o
           | Some o' => o = o'
           end
         ∧ Xr.dim_size ds "time" = Some (length figs)
         ∧ ∀ i fig, figs !! i = Some fig →
             plot_data_globe ds sts comps i o dn col kw = Ok fig
             ∧ files w' !! frame_path fp i = Some (Png fig)).
Proof.
  split_and!.
  - intros all ot w Hall.
    apply (run_congruence (DataGlobe ds fp fn None comps ot dn col kw)
             (DataGlobe ds fp fn (Some all) comps ot dn col kw));
      try done.
    cbn [prepare]. by rewrite Hall.
  - intros sts o w Ho.
    apply (run_congruence
             (DataGlobe ds fp fn (Some sts) comps None dn col kw)
             (DataGlobe ds fp fn (Some sts) comps (Some o) dn col kw));
      try done.
    cbn [prepare]. rewrite !result_bind_ok.
    destruct (Xr.coord_values ds "time"); [|done].
    by rewrite !result_bind_ok, Ho.
  - intros los ot w v w' Hrun.
    apply (ok_resolved (DataGlobe ds fp fn los comps ot dn col kw))
      in Hrun; [|done].
    apply completes_inv in Hrun
      as (w1 & base & n & frame & figs & _ & _ & Hprep & Hlen & _ & Hfigs
          & _ & ->).
    apply prepare_data_globe in Hprep as (sts & o & Hsts & Ho & Hn & ->).
    exists sts, o, figs. split_and!; [done|done|by rewrite Hlen|].
    intros i fig Hi. split; [by apply Hfigs|].
    by apply lookup_job_files_frame.
Qed.


(** C2.  What the drivers do with an extension-only file name (one
    with a ['.'] and at most four characters), once the directories
    are resolved: five raise [ValueError], and [connections_globe_gif]
    prints the message and returns it to the caller as a string, with
    no exception.  Nothing is written in either case. *)
Theorem extension_only_name (c : call) (w w1 : world) :
  let fn := call_filename c in
  Str.contains "." fn = true →
  String.length fn ≤ 4 →
  check_filepaths (call_filepath c) w = (Ok (), w1) →
  run c w =
  if raises_on_bad_name c then (Raise (ValueError name_error), w1)
  else (Ok (PyStr name_error),
        MkWorld (files w1) (stdout w1 ++ [name_error])).
Proof.
  intros fn Hdot Hlen Hdirs.
  rewrite run_blocks. unfold blocks, resolve_name. fold fn.
  rewrite bind_run, Hdirs, Hdot.
  apply Nat.ltb_ge in Hlen as ->.
  unfold refuse. by destruct (raises_on_bad_name c).
Qed.

End Claims.

(** ** More about the primitives and the blocks *)

Section MoreFacts.
Context `{Collaborators}.

Lemma write_file_ok_inv (p : string) (n : node) (w w' : world) :
  write_file p n w = (Ok (), w') →
  w' = set_files w (<[p := n]> (files w))
  ∧ files w !! p ≠ Some Dir
  ∧ (Path.dirname p = "" ∨ files w !! Path.dirname p = Some Dir).
Proof.
  unfold write_file.
  destruct (files w !! p) as [[| |]|] eqn:Hp; [done|..];
    (case_bool_decide as Hd;
     [intros [= <-]; by eauto
     |destruct (files w !! Path.dirname p) as [[| |]|]; [|done..];
      intros [= <-]; by eauto]).
Qed.

Lemma write_file_ok (p : string) (n : node) (w : world) :
  files w !! p ≠ Some Dir →
  Path.dirname p = "" ∨ files w !! Path.dirname p = Some Dir →
  write_file p n w = (Ok (), set_files w (<[p := n]> (files w))).
Proof.
  intros Hp Hd. unfold write_file.
  assert ((if bool_decide (Path.dirname p = "")
           then (Ok (), set_files w (<[p := n]> (files w)))
           else match files w !! Path.dirname p with
                | Some Dir => (Ok (), set_files w (<[p := n]> (files w)))
                | Some _ => (Raise NotADirectoryError, w)
                | None => (Raise FileNotFoundError, w)
                end)
          = (Ok (), set_files w (<[p := n]> (files w)))) as ->.
  { case_bool_decide; [done|]. destruct Hd as [? | ->]; done. }
  by destruct (files w !! p) as [[| |]|].
Qed.

(** Writing the same file once more changes nothing. *)
Lemma write_file_again (p : string) (n : node) (w w' : world) :
  n ≠ Dir →
  write_file p n w = (Ok (), w') →
  write_file p n w' = (Ok (), w').
Proof.
  intros Hn (-> & Hp & Hd)%write_file_ok_inv.
  rewrite write_file_ok; cbn.
  - by rewrite insert_insert_eq.
  - rewrite lookup_insert_eq. congruence.
  - destruct Hd as [Hd|Hd]; [by left|right].
    rewrite lookup_insert_ne; [done|]. intros Heq.
    rewrite <- Heq in Hd. congruence.
Qed.





Lemma gif_path_not_images_dir (fp base : string) :
  gif_path fp base ≠ images_dir fp.
Proof.
  unfold gif_path, images_dir. intros Hp.
  apply (f_equal list_ascii_of_string) in Hp. rewrite !chars_app in Hp.
  apply (f_equal reverse) in Hp. rewrite !reverse_app in Hp.
  cbn in Hp. discriminate.
Qed.


Lemma makedirs_stdout (p : string) (w : world) r w' :
  os_makedirs p w = (r, w') → stdout w' = stdout w.
Proof.
  unfold os_makedirs. case_bool_decide; [by intros [= _ <-]|].
  destruct (make_ancestors _ _) as [[[]|e] fs]; [|by intros [= _ <-]].
  destruct (fs !! p); by intros [= _ <-].
Qed.


Lemma ensure_dir_stdout (p : string) (w : world) r w' :
  ensure_dir p w = (r, w') → stdout w' = stdout w.
Proof.
  destruct (files w !! p) as [n|] eqn:Hp.
  - rewrite ensure_dir_present by eauto. by intros [= _ <-].
  - rewrite ensure_dir_absent by done. apply makedirs_stdout.
Qed.



Lemma check_filepaths_stdout (fp : string) (w : world) r w' :
  check_filepaths fp w = (r, w') → stdout w' = stdout w.
Proof.
  rewrite check_filepaths_ensure, bind_run.
  destruct (ensure_dir fp w) as [[[]|e] w1] eqn:H1.
  - intros H2. apply ensure_dir_stdout in H1, H2. congruence.
  - intros [= _ <-]. by eapply ensure_dir_stdout.
Qed.

End MoreFacts.

Section MoreJobFacts.
Context `{Collaborators}.

(** The frame loop run forwards: with every plot returning and every
    frame savable, the loop saves them all. *)
Lemma render_loop_ok (fp : string) (frame : nat → result Figure)
    (figs : list Figure) :
  ∀ start names w,
    (∀ j fig, figs !! j = Some fig → frame (start + j) = Ok fig) →
    files w !! images_dir fp = Some Dir →
    (∀ j, j < length figs →
       files w !! frame_path fp (start + j) ≠ Some Dir) →
    for_range_from start (length figs) (λ i names,
      fig ← lift (frame i);
      savefig fig (frame_path fp i);;
      mret (names ++ [frame_path fp i])) names w
    = (Ok (names ++ (frame_path fp <$> seq start (length figs))),
       set_files w (write_frames fp start figs (files w))).
Proof.
  induction figs as [|fig figs IH]; intros start names w Hfigs Hdir Hfree.
  - cbn. by rewrite app_nil_r, set_files_id.
  - cbn [length for_range_from]. rewrite bind_run, bind_lift.
    rewrite <- (Nat.add_0_r start) at 1. rewrite (Hfigs 0 fig) by done.
    rewrite bind_run, savefig_frame_ok; [|done|].
    2:{ rewrite <- (Nat.add_0_r start). apply Hfree. cbn. lia. }
    cbv beta iota. rewrite ret_run. cbv beta iota.
    rewrite IH.
    + cbn [seq fmap list_fmap write_frames]. by rewrite <- app_assoc.
    + intros j fig' Hj. rewrite Nat.add_succ_comm. by apply Hfigs.
    + cbn. rewrite lookup_insert_ne; [done|].
      apply frame_path_not_images_dir.
    + intros j Hj. cbn [files set_files]. rewrite lookup_insert_ne.
      * rewrite Nat.add_succ_comm. apply Hfree. cbn. lia.
      * intros Heq%frame_path_inj. lia.
Qed.

Lemma write_frames_id (fp : string) (figs : list Figure) :
  ∀ start fs,
    (∀ j fig, figs !! j = Some fig →
       fs !! frame_path fp (start + j) = Some (Png fig)) →
    write_frames fp start figs fs = fs.
Proof.
  induction figs as [|fig figs IH]; intros start fs Hfs; [done|]. cbn.
  rewrite insert_id.
  - apply IH. intros j fig' Hj. rewrite Nat.add_succ_comm. by apply Hfs.
  - rewrite <- (Nat.add_0_r start). by apply Hfs.
Qed.


Lemma same_figures (frame : nat → result Figure) (figs figs' : list Figure) :
  length figs = length figs' →
  (∀ j fig, figs !! j = Some fig → frame j = Ok fig) →
  (∀ j fig, figs' !! j = Some fig → frame j = Ok fig) →
  figs = figs'.
Proof.
  intros Hlen Hfigs Hfigs'. apply list_eq_same_length with (length figs);
    [done|done|].
  intros j fig fig' _ Hj Hj'. apply Hfigs in Hj. apply Hfigs' in Hj'.
  congruence.
Qed.

(** Everything after the name check, run forwards. *)
Lemma body_ok (c : call) (base : string) (w1 : world) n frame figs :
  prepare c = Ok (n, frame) →
  length figs = n → 0 < n →
  (∀ j fig, figs !! j = Some fig → frame j = Ok fig) →
  files w1 !! images_dir (call_filepath c) = Some Dir →
  (∀ j, j < n → files w1 !! frame_path (call_filepath c) j ≠ Some Dir) →
  body c base w1 =
  (write_file (gif_path (call_filepath c) base) (Gif figs 100 0);;
   mret PyNone)
    (set_files w1 (write_frames (call_filepath c) 0 figs (files w1))).
Proof.
  intros Hprep Hlen Hn Hfigs Hdir Hfree. unfold body.
  rewrite bind_lift, Hprep. cbn [fst snd]. rewrite bind_run.
  unfold render_frames, for_range. rewrite <- Hlen.
  rewrite (render_loop_ok _ _ figs); [|done|done|by rewrite Hlen].
  cbn [app]. erewrite encode_run by apply frames_on_disk.
  destruct figs; [cbn in Hlen; lia|done].
Qed.

(** A completed job, with what its success says about the world it
    started in. *)
Lemma completes_saved (c : call) (w : world) (v : pyval) (w' : world) :
  completes c w v w' →
  let fp := call_filepath c in
  ∃ w1 base n frame figs,
    check_filepaths fp w = (Ok (), w1)
    ∧ resolve_name (call_filename c) = Some base
    ∧ prepare c = Ok (n, frame)
    ∧ length figs = n ∧ 0 < n
    ∧ (∀ j fig, figs !! j = Some fig → frame j = Ok fig)
    ∧ v = PyNone
    ∧ files w1 !! images_dir fp = Some Dir
    ∧ write_file (gif_path fp base) (Gif figs 100 0)
        (set_files w1 (write_frames fp 0 figs (files w1)))
      = (Ok (), w').
Proof.
  intros [Hrun [base Hbase]] fp.
  apply run_inv in Hrun as (r1 & w1 & Hdirs & Hrest). fold fp in Hdirs.
  destruct r1 as [[]|e]; [|by destruct Hrest]. rewrite Hbase in Hrest.
  unfold body in Hrest. rewrite bind_lift in Hrest.
  destruct (prepare c) as [[n frame]|e] eqn:Hprep; [|done].
  cbn [fst snd] in Hrest. rewrite bind_run in Hrest.
  unfold render_frames, for_range in Hrest. fold fp in Hrest.
  destruct (for_range_from 0 n _ [] w1) as [[names|e] w2] eqn:Hloop;
    [|done].
  pose proof Hloop as Hloop'.
  apply render_loop_run in Hloop' as (figs & Hfigs & -> & Hlen & ->).
  cbn [app] in Hrest. rewrite <- Hlen in Hrest.
  erewrite encode_run in Hrest by apply frames_on_disk.
  destruct figs as [|fig0 figs]; [done|].
  rewrite bind_run in Hrest.
  destruct (write_file _ _ _) as [[[]|e] w3] eqn:Hsave in Hrest; [|done].
  injection Hrest as <- <-.
  exists w1, base, n, frame, (fig0 :: figs).
  split_and!; try done; [cbn in Hlen; lia|].
  rewrite <- Hlen in Hloop. cbn [length for_range_from] in Hloop.
  rewrite bind_run, bind_lift in Hloop.
  destruct (frame 0) as [fig|]; [|done]. rewrite bind_run in Hloop.
  destruct (savefig fig (frame_path fp 0) w1) as [[[]|e] w2] eqn:Hfirst;
    [|done].
  apply write_file_ok_inv in Hfirst as (_ & _ & Hd).
  rewrite dirname_frame_path in Hd.
  destruct Hd as [Hd|Hd]; [by apply images_dir_nonempty in Hd|done].
Qed.

End MoreJobFacts.

Section MoreDriverFacts.
Context `{Collaborators}.

Lemma refuse_run (c : call) (w : world) r w' :
  refuse c w = (r, w') →
  files w' = files w
  ∧ ((raises_on_bad_name c = true ∧ r = Raise (ValueError name_error)
      ∧ stdout w' = stdout w)
     ∨ (raises_on_bad_name c = false ∧ r = Ok (PyStr name_error)
        ∧ stdout w' = stdout w ++ [name_error])).
Proof.
  unfold refuse. destruct (raises_on_bad_name c); intros [= <- <-]; eauto.
Qed.

Lemma body_run_shape (c : call) (base : string) (w1 : world) r w' q :
  body c base w1 = (r, w') →
  stdout w' = stdout w1
  ∧ (∀ s, r ≠ Ok (PyStr s))
  ∧ ((∀ n frame i, prepare c = Ok (n, frame) → i < n →
        q ≠ frame_path (call_filepath c) i) →
     q ≠ gif_path (call_filepath c) base →
     files w' !! q = files w1 !! q).
Proof.
  intros Hbody.
  assert ((r = Ok PyNone ∨ ∃ e, r = Raise e)
          ∧ (w' = w1
             ∨ ∃ n frame figs,
                 prepare c = Ok (n, frame) ∧ length figs ≤ n
                 ∧ (w' = set_files w1
                           (write_frames (call_filepath c) 0 figs (files w1))
                    ∨ w' = set_files w1
                             (job_files (call_filepath c) base figs
                                (files w1))))) as [Hr Hw].
  { destruct (prepare c) as [[n frame]|e] eqn:Hprep.
    - eapply body_inv in Hbody as (figs & _ & Hcases); [|done].
      cbn zeta in Hcases.
      destruct Hcases as
        [(_ & _ & -> & ->)
        |[(Hlen & _ & -> & _ & ->)
         |[(Hlen & _ & -> & e & -> & _)|(Hlen & -> & e & -> & _)]]];
        (split; [by eauto|]); [by left|right..];
        exists n, frame, figs; (split_and!; [done|lia|by eauto]).
    - unfold body in Hbody. rewrite bind_lift, Hprep in Hbody.
      injection Hbody as <- <-. split; [by eauto|by left]. }
  split_and!.
  - destruct Hw as [->|(n & frame & figs & _ & _ & [->| ->])]; done.
  - intros s. by destruct Hr as [->|[e ->]].
  - intros Hq Hgif.
    destruct Hw as [->|(n & frame & figs & Hprep & Hlen & Hw)]; [done|].
    assert (write_frames (call_filepath c) 0 figs (files w1) !! q
            = files w1 !! q) as Hframes.
    { apply lookup_write_frames_other.
      intros j Hj. apply (Hq n frame); [done|lia]. }
    destruct Hw as [->| ->]; cbn; [done|].
    unfold job_files. by rewrite lookup_insert_ne.
Qed.

Lemma none_completes (c : call) (w w' : world) :
  run c w = (Ok PyNone, w') → completes c w PyNone w'.
Proof.
  intros Hrun. split; [done|].
  apply run_inv in Hrun as (r1 & w1 & _ & Hrest).
  destruct r1 as [[]|e]; [|by destruct Hrest].
  destruct (resolve_name (call_filename c)); [eauto|].
  by apply refuse_run in Hrest as [_ [(_ & [=] & _)|(_ & [=] & _)]].
Qed.

Lemma render_at_ok (c : call) (i : nat) (fig : Figure) :
  render_at c i = Ok fig →
  ∃ n frame, prepare c = Ok (n, frame) ∧ frame i = Ok fig.
Proof.
  unfold render_at. destruct (prepare c) as [[n frame]|e]; [|done].
  rewrite result_bind_ok. eauto.
Qed.


Lemma prepare_missing_axis (c : call) :
  Xr.dim_size (call_dataset c) (call_axis c) = None →
  ∃ name,
    prepare c = Raise (AttributeError name)
    ∧ (name = call_axis c ∨ name = "station" ∨ name = "first_st").
Proof.
  destruct c; cbn [prepare call_dataset call_axis];
    unfold Xr.dim_size, Xr.coord_values; intros Hax;
    repeat
      match goal with
      | |- context [Xr.assoc ?k ?l] => destruct (Xr.assoc k l) eqn:?
      | o : option (list label) |- _ => destruct o
      end;
    try discriminate; cbn; eauto.
Qed.

Lemma prepare_connections (ds : Dataset Data) fp fn ot dn kw n frame :
  prepare (ConnectionsGlobe ds fp fn ot dn kw) = Ok (n, frame) →
  ∃ sts wins o,
    Xr.coord_values ds "first_st" = Ok sts
    ∧ Xr.coord_values ds "win_start" = Ok wins
    ∧ match ot with
      | None => auto_ortho sts = Ok o
      | Some o' => o = o'
      end
    ∧ n = length wins
    ∧ frame = λ i,
        sl ← Xr.isel ds [("win_start", i)];
        adj_matrix ← Xr.var_values sl "adj_coeffs";
        time ← match wins !! i with
               | Some t => Ok t
               | None => Raise IndexError
               end;
        plot_connections_globe adj_matrix sts time o dn kw.
Proof.
  cbn [prepare]. intros Hprep.
  destruct (Xr.coord_values ds "first_st") as [sts|]; [|done].
  rewrite result_bind_ok in Hprep.
  destruct (Xr.coord_values ds "win_start") as [wins|]; [|done].
  rewrite result_bind_ok in Hprep.
  destruct ot as [o|].
  - rewrite result_bind_ok in Hprep. injection Hprep as <- <-.
    by exists sts, wins, o.
  - destruct (auto_ortho sts) as [o|] eqn:Ho; [|done].
    rewrite result_bind_ok in Hprep. injection Hprep as <- <-.
    by exists sts, wins, o.
Qed.

(** A position inside a dimension can always be sliced. *)
Lemma isel_in_range (ds : Dataset Data) (d : string) (i n : nat) :
  Xr.dim_size ds d = Some n → i < n →
  ∃ sl, Xr.isel ds [(d, i)] = Ok sl
        ∧ selected sl = selected ds ++ [(d, i)]
        ∧ payload sl = payload ds.
Proof.
  intros Hd Hi. unfold Xr.isel. cbn [forallb].
  rewrite known_dim_size, Hd, bool_decide_true by eauto.
  rewrite (in_range_dim_size _ _ _ _ Hd).
  apply Nat.ltb_lt in Hi as ->. cbn. eauto.
Qed.




End MoreDriverFacts.

(** * Further properties of the drivers *)

Section Extras.
Context `{Collaborators}.

(** X1.  No driver ever removes anything: after a run, whatever its
    outcome, every path that was there is still there, and every
    directory is still a directory. *)
Theorem run_never_removes (c : call) (w w' : world) (r : result pyval)
    (p : string) :
  run c w = (r, w') →
  (is_Some (files w !! p) → is_Some (files w' !! p))
  ∧ (files w !! p = Some Dir → files w' !! p = Some Dir).
Proof.
  intros Hrun. pose proof (keeps_run c w r w' Hrun p) as Hp. split.
  - by apply written_is_Some.
  - by apply written_dir.
Qed.


(** X3.  The only thing a driver ever prints is the refusal message of
    [connections_globe_gif], and it prints it exactly when it returns
    it: a run that returns a string has added that one line to the
    output, every other run has printed nothing. *)
Theorem prints_only_refusal (c : call) (w w' : world) (r : result pyval) :
  run c w = (r, w') →
  stdout w' =
  match r with
  | Ok (PyStr _) => stdout w ++ [name_error]
  | _ => stdout w
  end.
Proof.
  intros Hrun.
  apply run_inv in Hrun as (r1 & w1 & Hdirs & Hrest).
  apply check_filepaths_stdout in Hdirs as <-.
  destruct r1 as [[]|e]; [|by destruct Hrest as [-> ->]].
  destruct (resolve_name (call_filename c)) as [base|].
  - eapply (body_run_shape _ _ _ _ _ "") in Hrest as (-> & Hr & _).
    destruct r as [[|s]|e]; [done| |done]. by destruct (Hr s).
  - by apply refuse_run in Hrest
      as [_ [(_ & -> & ->)|(_ & -> & ->)]].
Qed.

(** X4.  Running a job once more on what it left reproduces it: the
    second run returns the same value and leaves the world exactly as
    the first did (the plotting functions being functions of their
    arguments). *)
Theorem rerun_reproduces (c : call) (w w' : world) (v : pyval) :
  completes c w v w' →
  run c w' = (Ok v, w').
Proof.
  intros Hdone. pose proof Hdone as [Hrun _].
  destruct (completes_saved _ _ _ _ Hdone)
    as (w1 & base & n & frame & figs & Hdirs & Hbase & Hprep & Hlen & Hn
        & Hfigs & -> & Hscratch & Hgif).
  destruct (run_keeps_dirs _ _ _ _ _ Hrun Hdirs) as [Hfp Him].
  pose proof Hgif as (Hw' & _ & _)%write_file_ok_inv.
  cbn [files set_files] in Hw'.
  change (w' = set_files w1
                 (job_files (call_filepath c) base figs (files w1))) in Hw'.
  assert (∀ j fig, figs !! j = Some fig →
            files w' !! frame_path (call_filepath c) j = Some (Png fig))
    as Hframes.
  { intros j fig Hj. rewrite Hw'. by apply lookup_job_files_frame. }
  rewrite run_blocks. unfold blocks.
  rewrite bind_run, check_filepaths_present, Hbase by done.
  rewrite (body_ok c base w' n frame figs); try done.
  - rewrite write_frames_id, set_files_id by done.
    assert (Gif figs 100 0 ≠ Dir) as Hnd by done.
    rewrite bind_run, (write_file_again _ _ _ _ Hnd Hgif). done.
  - rewrite Hw'. cbn.
    rewrite lookup_job_files_other; [done|..].
    + intros Heq. symmetry in Heq. by apply gif_path_not_images_dir in Heq.
    + intros j _ Heq. symmetry in Heq.
      by apply frame_path_not_images_dir in Heq.
  - intros j Hj.
    destruct (lookup_lt_is_Some_2 figs j) as [fig Hfig]; [lia|].
    by rewrite (Hframes _ _ Hfig).
Qed.


(** X6.  When the dataset has no coordinate of the name the driver
    iterates over, the driver raises [AttributeError] right after the
    name check: the directories are there, and nothing else has been
    written.  (The error names the iteration coordinate, or the station
    coordinate the driver reads before it.) *)
Theorem missing_axis_raises (c : call) (w w1 : world) (base : string) :
  check_filepaths (call_filepath c) w = (Ok (), w1) →
  resolve_name (call_filename c) = Some base →
  Xr.dim_size (call_dataset c) (call_axis c) = None →
  ∃ name,
    run c w = (Raise (AttributeError name), w1)
    ∧ (name = call_axis c ∨ name = "station" ∨ name = "first_st").
Proof.
  intros Hdirs Hbase Hax.
  destruct (prepare_missing_axis c Hax) as (name & Hprep & Hname).
  exists name. split; [|done].
  rewrite run_blocks. unfold blocks.
  rewrite bind_run, Hdirs, Hbase. unfold body.
  by rewrite bind_lift, Hprep.
Qed.

(** X7.  What [connections_globe_gif] plots.  In a run that returns
    [None], the stations are the values of the [first_st] coordinate, the
    orientation is the one given or else [auto_ortho] of these stations,
    and frame [i] is the plot of the [adj_coeffs] variable of the slice
    [win_start = i], labelled with the [i]-th value of [win_start]. *)
Theorem connections_frames (adj_mat_ds : Dataset Data) (fp fn : string)
    (ot : option Ortho) (dn : bool) (kw : Kwargs) (w w' : world) :
  connections_globe_gif adj_mat_ds fp fn ot dn kw w = (Ok PyNone, w') →
  ∃ sts wins o figs,
    Xr.coord_values adj_mat_ds "first_st" = Ok sts
    ∧ Xr.coord_values adj_mat_ds "win_start" = Ok wins
    ∧ match ot with
      | None => auto_ortho sts = Ok o
      | Some o' => o = o'
      end
    ∧ length figs = length wins
    ∧ ∀ i fig, figs !! i = Some fig →
        ∃ sl adj_matrix time,
          Xr.isel adj_mat_ds [("win_start", i)] = Ok sl
          ∧ Xr.var_values sl "adj_coeffs" = Ok adj_matrix
          ∧ wins !! i = Some time
          ∧ plot_connections_globe adj_matrix sts time o dn kw = Ok fig
          ∧ files w' !! frame_path fp i = Some (Png fig).
Proof.
  intros Hrun.
  apply (none_completes (ConnectionsGlobe adj_mat_ds fp fn ot dn kw))
    in Hrun.
  apply completes_inv in Hrun
    as (w1 & base & n & frame & figs & _ & _ & Hprep & Hlen & _ & Hfigs
        & _ & ->).
  apply prepare_connections in Hprep
    as (sts & wins & o & Hsts & Hwins & Ho & -> & ->).
  exists sts, wins, o, figs. split_and!; try done.
  intros i fig Hi. pose proof (Hfigs _ _ Hi) as Hfig. cbn beta in Hfig.
  destruct (Xr.isel adj_mat_ds [("win_start", i)]) as [sl|] eqn:Hsl;
    [|done].
  rewrite result_bind_ok in Hfig.
  destruct (Xr.var_values sl "adj_coeffs") as [arr|] eqn:Harr; [|done].
  rewrite result_bind_ok in Hfig.
  destruct (wins !! i) as [t|] eqn:Ht; [|done].
  rewrite result_bind_ok in Hfig.
  exists sl, arr, t. split_and!; try done.
  by apply lookup_job_files_frame.
Qed.

(** X8.  In [lag_network_gif], [corr_thresh_gif] and [cca_ang_gif] the
    slice of every index of the loop exists (the loop runs over the
    length of the very axis it slices), so frame [i] is the plot of the
    slice [axis = i], and is an error only when the plotting function
    raises. *)
Theorem slice_drivers_render (ds : Dataset Data) (fp fn : string)
    (kw : Kwargs) (a_b : string) (i : nat) :
  (∀ n, Xr.dim_size ds "win_start" = Some n → i < n →
     ∃ sl,
       Xr.isel ds [("win_start", i)] = Ok sl
       ∧ selected sl = selected ds ++ [("win_start", i)]
       ∧ render_at (LagNetwork ds fp fn kw) i = plot_lag_network sl kw
       ∧ render_at (CorrThresh ds fp fn kw) i = plot_corr_thresh sl kw)
  ∧ (∀ n, Xr.dim_size ds "time" = Some n → i < n →
       ∃ sl,
         Xr.isel ds [("time", i)] = Ok sl
         ∧ selected sl = selected ds ++ [("time", i)]
         ∧ render_at (CcaAng ds a_b fp fn kw) i = plot_cca_ang sl a_b kw).
Proof.
  split; intros n Hn Hi.
  - destruct (isel_in_range _ _ _ _ Hn Hi) as (sl & Hsl & Hsel & _).
    apply dim_size_coord_values in Hn as (vs & Hvs & _).
    exists sl. split_and!; [done|done|..];
      unfold render_at; cbn [prepare];
      rewrite Hvs, !result_bind_ok; cbn [snd]; by rewrite Hsl.
  - destruct (isel_in_range _ _ _ _ Hn Hi) as (sl & Hsl & Hsel & _).
    apply dim_size_coord_values in Hn as (vs & Hvs & _).
    exists sl. split_and!; [done|done|].
    unfold render_at. cbn [prepare].
    rewrite Hvs, !result_bind_ok. cbn [snd]. by rewrite Hsl.
Qed.

(** X9.  The directory check asks whether the paths exist, not whether
    they are directories.  When [<filepath>/images_for_giffing] is a
    regular file the check passes, the first plot is made, and saving
    it raises [NotADirectoryError]; nothing has changed. *)
Theorem scratch_file_blocks (c : call) (w : world) (base : string)
    (nd : node) (fig : Figure) :
  let fp := call_filepath c in
  is_Some (files w !! fp) →
  files w !! images_dir fp = Some nd → nd ≠ Dir →
  files w !! frame_path fp 0 ≠ Some Dir →
  resolve_name (call_filename c) = Some base →
  render_at c 0 = Ok fig →
  (∃ n, Xr.dim_size (call_dataset c) (call_axis c) = Some (S n)) →
  run c w = (Raise NotADirectoryError, w).
Proof.
  intros fp Hfp Him Hnd Hfree Hbase Hfig [n Hn].
  apply render_at_ok in Hfig as (n' & frame & Hprep & Hfig).
  pose proof (prepare_axis _ _ _ Hprep) as Hax.
  rewrite Hn in Hax. injection Hax as <-.
  rewrite run_blocks. unfold blocks. fold fp.
  rewrite bind_run, check_filepaths_present, Hbase by (rewrite ?Him; eauto).
  unfold body. rewrite bind_lift, Hprep. cbn [fst snd]. fold fp.
  rewrite bind_run. unfold render_frames, for_range.
  cbn [for_range_from]. rewrite bind_run, bind_lift, Hfig, bind_run.
  assert (savefig fig (frame_path fp 0) w = (Raise NotADirectoryError, w))
    as ->; [|done].
  unfold savefig, write_file.
  rewrite dirname_frame_path, Him.
  rewrite bool_decide_false by apply images_dir_nonempty.
  destruct (files w !! frame_path fp 0) as [[| |]|]; [done|..];
    by destruct nd.
Qed.


(** X11.  [lag_mat_gif_time] slices every frame at [lag = 0]: with a
    non-empty [time_win] axis and a [lag] axis that is missing or
    empty, no run returns. *)
Theorem lag_axis_needed (lag_ds : Dataset Data) (fp fn : string)
    (kw : Kwargs) (N : nat) :
  Xr.dim_size lag_ds "time_win" = Some N →
  Xr.dim_size lag_ds "lag" = None ∨ Xr.dim_size lag_ds "lag" = Some 0 →
  ∀ w v w', lag_mat_gif_time lag_ds fp fn kw w ≠ (Ok v, w').
Proof.
  intros Htw Hlag w v w' Hrun.
  apply (ok_resolved (LagMatTime lag_ds fp fn kw)) in Hrun; [|done].
  apply completes_inv in Hrun
    as (w1 & base & n & frame & figs & _ & _ & Hprep & Hlen & Hn & Hfigs
        & _ & _).
  apply prepare_lag_mat in Hprep as [_ ->].
  destruct (lookup_lt_is_Some_2 figs 0) as [fig Hfig]; [lia|].
  apply Hfigs in Hfig. cbn beta in Hfig.
  destruct (lag_slice lag_ds 0) as [lm|] eqn:Hlm; [|done].
  apply lag_slice_ok in Hlm as (_ & _ & (m & Hm & Hpos) & _).
  destruct Hlag as [Hlag|Hlag]; rewrite Hlag in Hm; [done|].
  injection Hm as <-. lia.
Qed.

(** X12.  The default orientation is computed once, before any plot:
    when [auto_ortho] raises, [data_globe_gif] and
    [connections_globe_gif] raise the same exception with the
    directories made and no frame written, even when the iteration axis
    is empty. *)
Theorem orientation_error_first (ds : Dataset Data) (fp fn : string)
    (w w1 : world) (base : string) (e : exn) :
  check_filepaths fp w = (Ok (), w1) →
  resolve_name fn = Some base →
  (∀ los comps dn col kw sts times,
     match los with
     | None => Xr.coord_values ds "station" = Ok sts
     | Some l => sts = l
     end →
     Xr.coord_values ds "time" = Ok times →
     auto_ortho sts = Raise e →
     data_globe_gif ds fp fn los comps None dn col kw w = (Raise e, w1))
  ∧ (∀ dn kw sts wins,
       Xr.coord_values ds "first_st" = Ok sts →
       Xr.coord_values ds "win_start" = Ok wins →
       auto_ortho sts = Raise e →
       connections_globe_gif ds fp fn None dn kw w = (Raise e, w1)).
Proof.
  intros Hdirs Hbase.
  assert (∀ c, call_filepath c = fp → call_filename c = fn →
               prepare c = Raise e → run c w = (Raise e, w1)) as Hfail.
  { intros c Hfp Hfn Hprep. rewrite run_blocks. unfold blocks.
    rewrite Hfp, Hfn, bind_run, Hdirs, Hbase. unfold body.
    by rewrite bind_lift, Hprep. }
  split.
  - intros los comps dn col kw sts times Hsts Htimes Ho.
    apply (Hfail (DataGlobe ds fp fn los comps None dn col kw));
      [done..|].
    cbn [prepare]. destruct los as [l|].
    + subst l. by rewrite result_bind_ok, Htimes, result_bind_ok, Ho.
    + by rewrite Hsts, result_bind_ok, Htimes, result_bind_ok, Ho.
  - intros dn kw sts wins Hsts Hwins Ho.
    apply (Hfail (ConnectionsGlobe ds fp fn None dn kw)); [done..|].
    cbn [prepare].
    by rewrite Hsts, result_bind_ok, Hwins, result_bind_ok, Ho.
Qed.


End Extras.

(** * The scenarios as instances of the claims *)

Section Witnesses.
Import Scenarios.
#[local] Existing Instance plots.

Example scenario_a_files :
  files (run scenario_a empty_world).2
  = list_to_map
     [("out", Dir); ("out/images_for_giffing", Dir);
      ("out/images_for_giffing/0.png", Png 220);
      ("out/images_for_giffing/1.png", Png 221);
      ("out/images_for_giffing/2.png", Png 222);
      ("out/images_for_giffing/3.png", Png 223);
      ("out/images_for_giffing/4.png", Png 224);
      ("out/globe_data.gif", Gif [220; 221; 222; 223; 224] 100 0)].
Proof. vm_compute. reflexivity. Qed.



(** An empty time axis is an instance of C4. *)
Lemma empty_axis_fails_witness :
  run scenario_empty empty_world = (Raise IndexError, resolved)
  ∧ encode "out" "globe_data" [] resolved = (Raise IndexError, resolved).
Proof.
  eapply (empty_axis_fails scenario_empty empty_world resolved
            "globe_data").
  - vm_compute; reflexivity.
  - reflexivity.
  - reflexivity.
  - reflexivity.
Defined.



(** Scenario A is an instance of C10. *)
Lemma returns_none_witness :
  (is_Some (resolve_name "globe_data") → PyNone = PyNone)
  ∧ (resolve_name "globe_data" = None →
       raises_on_bad_name scenario_a = false
       ∧ PyNone = PyStr name_error).
Proof.
  apply (returns_none scenario_a empty_world
           (run scenario_a empty_world).2 PyNone).
  vm_compute; reflexivity.
Defined.


(** Scenario A, which leaves both options out, is an instance of C8. *)
Lemma data_globe_defaults_witness :
  ∃ sts o figs,
    Xr.coord_values five_times "station" = Ok sts
    ∧ auto_ortho sts = Ok o
    ∧ Xr.dim_size five_times "time" = Some (length figs)
    ∧ ∀ i fig, figs !! i = Some fig →
        plot_data_globe five_times sts ["N"; "E"] i o true false None
        = Ok fig
        ∧ files (run scenario_a empty_world).2 !! frame_path "out" i
          = Some (Png fig).
Proof.
  destruct (@data_globe_defaults plots five_times "out" "globe_data" ["N"; "E"]
              true false None) as (_ & _ & Hused).
  apply (Hused None None empty_world PyNone). vm_compute; reflexivity.
Defined.


(** [connections_globe_gif] on [".gif"]: the message comes back as a
    value. *)
Lemma extension_only_name_witness :
  run scenario_dot_gif empty_world
  = (Ok (PyStr name_error),
     MkWorld (files resolved) (stdout resolved ++ [name_error])).
Proof.
  apply (extension_only_name scenario_dot_gif empty_world resolved).
  - reflexivity.
  - cbn; lia.
  - vm_compute; reflexivity.
Defined.

End Witnesses.

(** * The scenarios as instances of the further properties *)

Section MoreWitnesses.
Import Scenarios.
Import MoreScenarios.
#[local] Existing Instance plots.

Lemma run_never_removes_witness :
  (is_Some (files resolved !! "out") → is_Some (files after_a !! "out"))
  ∧ (files resolved !! "out" = Some Dir → files after_a !! "out" = Some Dir).
Proof.
  apply (run_never_removes scenario_a resolved after_a (Ok PyNone) "out").
  vm_compute; reflexivity.
Defined.


Lemma prints_only_refusal_witness :
  stdout (run scenario_dot_gif empty_world).2
  = stdout empty_world ++ [name_error].
Proof.
  apply (prints_only_refusal scenario_dot_gif empty_world
           (run scenario_dot_gif empty_world).2 (Ok (PyStr name_error))).
  vm_compute; reflexivity.
Defined.

Lemma rerun_reproduces_witness :
  run scenario_a after_a = (Ok PyNone, after_a).
Proof.
  apply (rerun_reproduces scenario_a empty_world after_a PyNone).
  split; [vm_compute; reflexivity | vm_compute; eauto].
Defined.


Lemma missing_axis_raises_witness :
  ∃ name,
    run scenario_no_axis empty_world = (Raise (AttributeError name), resolved)
    ∧ (name = "time" ∨ name = "station" ∨ name = "first_st").
Proof.
  apply (missing_axis_raises scenario_no_axis empty_world resolved
           "globe_data").
  - vm_compute; reflexivity.
  - reflexivity.
  - reflexivity.
Defined.

Lemma connections_frames_witness :
  ∃ sts wins o figs,
    Xr.coord_values windows "first_st" = Ok sts
    ∧ Xr.coord_values windows "win_start" = Ok wins
    ∧ auto_ortho sts = Ok o
    ∧ length figs = length wins
    ∧ ∀ i fig, figs !! i = Some fig →
        ∃ sl adj_matrix time,
          Xr.isel windows [("win_start", i)] = Ok sl
          ∧ Xr.var_values sl "adj_coeffs" = Ok adj_matrix
          ∧ wins !! i = Some time
          ∧ plot_connections_globe adj_matrix sts time o true None = Ok fig
          ∧ files (connections_globe_gif windows "out" "globe_conn" None
                     true None empty_world).2 !! frame_path "out" i
            = Some (Png fig).
Proof.
  apply (@connections_frames plots windows "out" "globe_conn" None true
           None empty_world).
  vm_compute; reflexivity.
Defined.

Lemma slice_drivers_render_witness :
  ∃ sl,
    Xr.isel windows [("win_start", 1)] = Ok sl
    ∧ selected sl = selected windows ++ [("win_start", 1)]
    ∧ render_at (LagNetwork windows "out" "lag_network" None) 1
      = plot_lag_network sl None
    ∧ render_at (CorrThresh windows "out" "lag_network" None) 1
      = plot_corr_thresh sl None.
Proof.
  destruct (@slice_drivers_render plots windows "out" "lag_network" None
              "a" 1) as [Hwin _].
  apply (Hwin 2); [reflexivity | lia].
Defined.

Lemma scratch_file_blocks_witness :
  run scenario_a scratch_is_file = (Raise NotADirectoryError, scratch_is_file).
Proof.
  apply (scratch_file_blocks scenario_a scratch_is_file "globe_data"
           (@Png plots 7) 220).
  - vm_compute; eauto.
  - vm_compute; reflexivity.
  - discriminate.
  - vm_compute; discriminate.
  - reflexivity.
  - reflexivity.
  - exists 4. reflexivity.
Defined.


Lemma lag_axis_needed_witness :
  Xr.dim_size lagless "time_win" = Some 2
  ∧ Xr.dim_size lagless "lag" = None
  ∧ ∀ w v w', lag_mat_gif_time lagless "out" "lag_mat" None w ≠ (Ok v, w').
Proof.
  split_and!; [reflexivity..|].
  apply (@lag_axis_needed plots lagless "out" "lag_mat" None 2).
  - reflexivity.
  - left. reflexivity.
Defined.

Lemma orientation_error_first_witness :
  @data_globe_gif strict_plots no_stations "out" "globe_data" None
    ["N"; "E"] None true false None strict_empty
  = (Raise (ValueError "no stations"), strict_resolved)
  ∧ @connections_globe_gif strict_plots no_stations "out" "globe_data" None
      true None strict_empty
    = (Raise (ValueError "no stations"), strict_resolved).
Proof.
  destruct (@orientation_error_first strict_plots no_stations "out"
              "globe_data" strict_empty strict_resolved "globe_data"
              (ValueError "no stations"))
    as [Hdata Hconn]; [vm_compute; reflexivity | reflexivity |].
  split.
  - apply (Hdata None ["N"; "E"] true false None [] []); reflexivity.
  - apply (Hconn true None [] []); reflexivity.
Defined.


End MoreWitnesses.
